(** * Orbit API: the token-holdings endpoint

    A shallow embedding of [api/tokens/[address].ts] (the deployed handler)
    and of its earlier revision, together with the properties of the
    aggregation they implement.

    Conventions of the embedding.
    - A JavaScript [string] is a Rocq [string]: the bytes of its UTF-8
      encoding.
    - A JavaScript [bigint] is a [Z]; a JavaScript [number] is a binary64
      [float] with the IEEE operations of the kernel.
    - A value of TypeScript type [Address] is a base-58 string of 32 to 44
      characters.  Such a string is never a canonical array index and
      never names a member of [Object.prototype], so a JavaScript object
      keyed by addresses is an association list in insertion order and a
      property read is a lookup among the object's own properties.
    - [await fetch(...)] is a call to the upstream provider: computations
      run against an [Upstream] and thread the log of the requests made so
      far.  A rejected promise or a thrown exception is [Thrown]. *)

From Stdlib Require Import ZArith String Ascii DecimalString DecimalPos List Bool Arith Lia Floats.
Import ListNotations.

Local Open Scope string_scope.
Local Open Scope list_scope.

(** ** Exceptions *)

Inductive JsError : Type :=
| Error (message : string)     (* [new Error(message)] *)
| SyntaxError                  (* malformed BigInt literal, malformed JSON *)
| RangeError                   (* non-integral number to BigInt, negative exponent *)
| TypeError                    (* a value of the wrong shape *)
| FetchFailed.                 (* the promise of [fetch] was rejected *)

Inductive result (A : Type) : Type :=
| Ok (a : A)
| Err (e : JsError).

Arguments Ok {A} a.
Arguments Err {A} e.

Definition rbind {A B : Type} (r : result A) (k : A -> result B) : result B :=
  match r with
  | Ok a => k a
  | Err e => Err e
  end.

Declare Scope js_scope.
Delimit Scope js_scope with js.

Notation "'let?' x ':=' r 'in' k" := (rbind r (fun x => k))
  (at level 10, x name, r at level 100, k at level 200) : js_scope.

Local Open Scope js_scope.

(** ** Numbers and big integers *)

Definition number : Type := float.
Definition bigint : Type := Z.

(** [ToBoolean] on a number: [+0], [-0] and [NaN] are falsy. *)
Definition truthyNumber (x : number) : bool :=
  negb (PrimFloat.is_zero x || PrimFloat.is_nan x).

(** [ToBoolean] on a string: only the empty string is falsy. *)
Definition truthyString (s : string) : bool :=
  match s with
  | EmptyString => false
  | String _ _ => true
  end.

(** [ToBoolean] on a bigint: only [0n] is falsy. *)
Definition truthyBigint (z : bigint) : bool := negb (z =? 0)%Z.

(** [Number(z)] for a bigint [z]: the nearest binary64 value, ties to even,
    overflowing to an infinity. *)
Definition Number (z : bigint) : number :=
  SF2Prim (binary_normalize prec emax z 0 false).

(** [BigInt(x)] for a number [x]: [RangeError] unless [x] is integral. *)
Definition BigIntOfNumber (x : number) : result bigint :=
  match Prim2SF x with
  | S754_zero _ => Ok 0%Z
  | S754_finite s m e =>
      if (0 <=? e)%Z then Ok (cond_Zopp s (Z.pos m * 2 ^ e))%Z
      else if (Z.pos m mod 2 ^ (- e) =? 0)%Z
           then Ok (cond_Zopp s (Z.pos m / 2 ^ (- e)))%Z
           else Err RangeError
  | S754_infinity _ | S754_nan => Err RangeError
  end.

(** [b ** e] on bigints: [RangeError] for a negative exponent. *)
Definition bigintPow (b e : bigint) : result bigint :=
  if (e <? 0)%Z then Err RangeError else Ok (b ^ e)%Z.

(** [a / b] on bigints truncates towards zero; [RangeError] when [b] is [0n]. *)
Definition bigintDiv (a b : bigint) : result bigint :=
  if (b =? 0)%Z then Err RangeError else Ok (Z.quot a b).

(** *** [BigInt(s)] for a string: the [StringToBigInt] grammar *)

Definition digitValue (c : ascii) : option Z :=
  let n := Z.of_nat (nat_of_ascii c) in
  if ((48 <=? n) && (n <=? 57))%Z then Some (n - 48)%Z
  else if ((97 <=? n) && (n <=? 102))%Z then Some (n - 87)%Z
  else if ((65 <=? n) && (n <=? 70))%Z then Some (n - 55)%Z
  else None.

Fixpoint parseDigits (radix : Z) (s : string) (acc : Z) : option Z :=
  match s with
  | EmptyString => Some acc
  | String c s' =>
      match digitValue c with
      | Some d => if (d <? radix)%Z then parseDigits radix s' (acc * radix + d)%Z else None
      | None => None
      end
  end.

(** One digit at least. *)
Definition parseNumeral (radix : Z) (s : string) : option Z :=
  match s with
  | EmptyString => None
  | String _ _ => parseDigits radix s 0%Z
  end.

Definition isChar (c : ascii) (n : nat) : bool := Nat.eqb (nat_of_ascii c) n.

(** [StrIntegerLiteral]: a decimal numeral with an optional sign, or an
    unsigned numeral with prefix [0x], [0o] or [0b] in either case. *)
Definition parseIntegerLiteral (s : string) : option Z :=
  match s with
  | String c0 (String c1 ds) =>
      if isChar c0 48 && (isChar c1 120 || isChar c1 88) then parseNumeral 16 ds
      else if isChar c0 48 && (isChar c1 111 || isChar c1 79) then parseNumeral 8 ds
      else if isChar c0 48 && (isChar c1 98 || isChar c1 66) then parseNumeral 2 ds
      else if isChar c0 43 then parseNumeral 10 (String c1 ds)
      else if isChar c0 45 then option_map Z.opp (parseNumeral 10 (String c1 ds))
      else parseNumeral 10 s
  | _ => parseNumeral 10 s
  end.

(** Leading [WhiteSpace] and [LineTerminator] code points, in UTF-8:
    U+0009..U+000D, U+0020, U+00A0, U+1680, U+2000..U+200A, U+2028, U+2029,
    U+202F, U+205F, U+3000 and U+FEFF. *)
Fixpoint trimStart (l : list nat) : list nat :=
  match l with
  | a :: l1 =>
      if ((9 <=? a) && (a <=? 13) || (a =? 32))%nat then trimStart l1
      else
        match l1 with
        | b :: l2 =>
            if ((a =? 194) && (b =? 160))%nat then trimStart l2
            else
              match l2 with
              | c :: l3 =>
                  if ((a =? 225) && (b =? 154) && (c =? 128)
                      || (a =? 226) && (b =? 128)
                         && ((128 <=? c) && (c <=? 138) || (c =? 168) || (c =? 169) || (c =? 175))
                      || (a =? 226) && (b =? 129) && (c =? 159)
                      || (a =? 227) && (b =? 128) && (c =? 128)
                      || (a =? 239) && (b =? 187) && (c =? 191))%nat
                  then trimStart l3
                  else l
              | [] => l
              end
        | [] => l
        end
  | [] => []
  end.

(** The same code points at the end of the string, read backwards. *)
Fixpoint trimEndRev (l : list nat) : list nat :=
  match l with
  | c :: l1 =>
      if ((9 <=? c) && (c <=? 13) || (c =? 32))%nat then trimEndRev l1
      else
        match l1 with
        | b :: l2 =>
            if ((b =? 194) && (c =? 160))%nat then trimEndRev l2
            else
              match l2 with
              | a :: l3 =>
                  if ((a =? 225) && (b =? 154) && (c =? 128)
                      || (a =? 226) && (b =? 128)
                         && ((128 <=? c) && (c <=? 138) || (c =? 168) || (c =? 169) || (c =? 175))
                      || (a =? 226) && (b =? 129) && (c =? 159)
                      || (a =? 227) && (b =? 128) && (c =? 128)
                      || (a =? 239) && (b =? 187) && (c =? 191))%nat
                  then trimEndRev l3
                  else l
              | [] => l
              end
        | [] => l
        end
  | [] => []
  end.

Definition trim (s : string) : string :=
  let bytes := map nat_of_ascii (list_ascii_of_string s) in
  let kept := rev (trimEndRev (rev (trimStart bytes))) in
  string_of_list_ascii (map ascii_of_nat kept).

(** [BigInt(s)]: the empty literal is [0n]; a string outside the grammar
    throws [SyntaxError]. *)
Definition BigInt (s : string) : result bigint :=
  match trim s with
  | EmptyString => Ok 0%Z
  | String _ _ as t =>
      match parseIntegerLiteral t with
      | Some z => Ok z
      | None => Err SyntaxError
      end
  end.

(** ** Arrays and objects *)

(** [l.slice(start, end_)] for [0 <= start <= end_]. *)
Definition slice {A : Type} (start end_ : nat) (l : list A) : list A :=
  firstn (end_ - start) (skipn start l).

(** [l.join(sep)] on an array of strings. *)
Definition join (sep : string) (l : list string) : string := String.concat sep l.

(** [l.map(f)] for a callback that may throw: the first exception wins. *)
Fixpoint mapResult {A B : Type} (f : A -> result B) (l : list A) : result (list B) :=
  match l with
  | [] => Ok []
  | a :: l' =>
      let? b := f a in
      let? bs := mapResult f l' in
      Ok (b :: bs)
  end.

Definition Address : Type := string.

(** An object keyed by addresses: its own properties, in insertion order. *)
Definition JsObject (V : Type) : Type := list (Address * V).

(** [o[k]], [None] standing for [undefined]. *)
Fixpoint getProp {V : Type} (o : JsObject V) (k : Address) : option V :=
  match o with
  | [] => None
  | (k', v) :: o' => if String.eqb k' k then Some v else getProp o' k
  end.

(** [o[k] = v]: an existing property keeps its place, a new one goes last. *)
Fixpoint setProp {V : Type} (o : JsObject V) (k : Address) (v : V) : JsObject V :=
  match o with
  | [] => [(k, v)]
  | (k', v') :: o' =>
      if String.eqb k' k then (k', v) :: o' else (k', v') :: setProp o' k v
  end.

Definition ObjectKeys {V : Type} (o : JsObject V) : list Address := map fst o.

Definition ObjectEntries {V : Type} (o : JsObject V) : list (Address * V) := o.

(** ** The provider's payloads and the endpoint's records *)

(** One element of [tokens[mint]]: [{ amount: string }]. *)
Record HoldingAccount : Type := { account_amount : string }.

Record JupiterHoldingsApiResponse : Type := {
  holdings_amount : string;
  holdings_tokens : JsObject (list HoldingAccount)
}.

Record Stats24h : Type := { priceChange : option number }.

(** An optional field that is absent is [None]. *)
Record JupiterTokenSearchApiResponse : Type := {
  token_id : Address;
  token_name : string;
  token_symbol : string;
  token_decimals : number;
  token_icon : option string;
  token_usdPrice : option number;
  token_isVerified : option bool;
  token_stats24h : option Stats24h
}.

(** A field that is [null] is [None]. *)
Record TokenData : Type := {
  mint : Address;
  amount : bigint;
  name : string;
  symbol : string;
  icon : option string;
  decimals : number;
  usdPriceUnit : option number;
  usdValue : option number;
  jupiterIsVerified : bool;
  priceChange24hPercent : option number
}.

(** ** The upstream provider *)

Record FetchRequest : Type := {
  url : string;
  headers : list (string * string)
}.

(** The parsed body of a response, by shape. *)
Inductive Json : Type :=
| JsonHoldings (h : JupiterHoldingsApiResponse)
| JsonSearch (l : list JupiterTokenSearchApiResponse).

(** [body = None]: the body is not JSON. *)
Record FetchResponse : Type := {
  ok : bool;
  statusText : string;
  body : option Json
}.

Inductive FetchOutcome : Type :=
| Rejected
| Resolved (r : FetchResponse).

(** What the provider answers to the [k]-th request of a run. *)
Definition Upstream : Type := nat -> FetchRequest -> FetchOutcome.

(** ** Computations that call the provider *)

Inductive outcome (A : Type) : Type :=
| Returned (a : A)
| Thrown (e : JsError)
| Unfinished.            (* the iteration bound of the embedding was reached *)

Arguments Returned {A} a.
Arguments Thrown {A} e.
Arguments Unfinished {A}.

Definition Async (A : Type) : Type :=
  list FetchRequest -> outcome A * list FetchRequest.

Definition ret {A : Type} (a : A) : Async A := fun log => (Returned a, log).

Definition throw {A : Type} (e : JsError) : Async A := fun log => (Thrown e, log).

Definition unfinished {A : Type} : Async A := fun log => (Unfinished, log).

Definition bind {A B : Type} (m : Async A) (k : A -> Async B) : Async B :=
  fun log =>
    match m log with
    | (Returned a, log') => k a log'
    | (Thrown e, log') => (Thrown e, log')
    | (Unfinished, log') => (Unfinished, log')
    end.

Definition lift {A : Type} (r : result A) : Async A :=
  match r with
  | Ok a => ret a
  | Err e => throw e
  end.

(** [try { m } catch (error) { h error }] *)
Definition tryCatch {A : Type} (m : Async A) (h : JsError -> Async A) : Async A :=
  fun log =>
    match m log with
    | (Thrown e, log') => h e log'
    | r => r
    end.

Notation "'let!' x ':=' m 'in' k" := (bind m (fun x => k))
  (at level 10, x name, m at level 100, k at level 200) : js_scope.

(** [await fetch(url, { headers })] *)
Definition fetch (up : Upstream) (req : FetchRequest) : Async FetchResponse :=
  fun log =>
    (match up (List.length log) req with
     | Rejected => Thrown FetchFailed
     | Resolved r => Returned r
     end, log ++ [req]).

(** [await response.json()] read as a holdings payload; using a payload of
    the other shape ends in a [TypeError]. *)
Definition holdingsJson (r : FetchResponse) : result JupiterHoldingsApiResponse :=
  match body r with
  | None => Err SyntaxError
  | Some (JsonHoldings h) => Ok h
  | Some (JsonSearch _) => Err TypeError
  end.

(** [await response.json()] read as a search payload. *)
Definition searchJson (r : FetchResponse) : result (list JupiterTokenSearchApiResponse) :=
  match body r with
  | None => Err SyntaxError
  | Some (JsonSearch l) => Ok l
  | Some (JsonHoldings _) => Err TypeError
  end.

(** *** [URLSearchParams]

    [toString()] serialises as [application/x-www-form-urlencoded]: ASCII
    letters, digits and [*-._] stand for themselves, a space is [+], any
    other byte is percent-encoded. *)

Definition hexDigit (n : nat) : ascii :=
  ascii_of_nat (if (n <? 10)%nat then 48 + n else 55 + n).

Definition formEncodeByte (c : ascii) : string :=
  let n := nat_of_ascii c in
  if ((48 <=? n) && (n <=? 57) || (65 <=? n) && (n <=? 90) || (97 <=? n) && (n <=? 122)
      || (n =? 42) || (n =? 45) || (n =? 46) || (n =? 95))%nat
  then String c EmptyString
  else if (n =? 32)%nat then "+"
  else String "%" (String (hexDigit (n / 16)) (String (hexDigit (n mod 16)) EmptyString)).

Fixpoint formEncode (s : string) : string :=
  match s with
  | EmptyString => EmptyString
  | String c s' => formEncodeByte c ++ formEncode s'
  end.

(** [new URLSearchParams()] with one [append(name, value)], then [toString()]. *)
Definition searchParamsToString (name_ value : string) : string :=
  formEncode name_ ++ "=" ++ formEncode value.

(** ** Requests and responses of the endpoint *)

(** [req.query.address]: absent, one string, or an array of strings. *)
Inductive QueryValue : Type :=
| QueryAbsent
| QueryString (s : string)
| QueryArray (l : list string).

Record VercelRequest : Type := {
  req_method : option string;
  req_origin : option string;          (* [req.headers.origin] *)
  req_address : QueryValue             (* [req.query.address] *)
}.

Inductive Payload : Type :=
| SendNull                                   (* [send(null)] *)
| JsonError (error : string)                 (* [json({ error })] *)
| JsonTokens (tokens : list TokenData).      (* [json({ tokens })] *)

Record VercelResponse : Type := {
  res_headers : list (string * string);
  res_status : nat;
  res_payload : option Payload
}.

(** The response object the platform hands to the handler. *)
Definition freshResponse : VercelResponse :=
  {| res_headers := []; res_status := 200; res_payload := None |}.

Definition setHeader (res : VercelResponse) (name_ value : string) : VercelResponse :=
  {| res_headers := setProp (res_headers res) name_ value;
     res_status := res_status res;
     res_payload := res_payload res |}.

Definition status (res : VercelResponse) (code : nat) : VercelResponse :=
  {| res_headers := res_headers res;
     res_status := code;
     res_payload := res_payload res |}.

Definition send (res : VercelResponse) (p : Payload) : VercelResponse :=
  {| res_headers := res_headers res;
     res_status := res_status res;
     res_payload := Some p |}.

(** [x || 0n] for [x] a bigint or [undefined]. *)
Definition orZero (x : option bigint) : bigint :=
  match x with
  | Some b => if truthyBigint b then b else 0%Z
  | None => 0%Z
  end.

(** [s || null] for [s] a string or [undefined]. *)
Definition stringOrNull (s : option string) : option string :=
  match s with
  | Some t => if truthyString t then Some t else None
  | None => None
  end.

(** [x || null] for [x] a number or [undefined]. *)
Definition numberOrNull (x : option number) : option number :=
  match x with
  | Some y => if truthyNumber y then Some y else None
  | None => None
  end.

(** [b || false] for [b] a boolean or [undefined]. *)
Definition boolOrFalse (b : option bool) : bool :=
  match b with
  | Some true => true
  | _ => false
  end.

(** [x === s] for [x] a string or [undefined]. *)
Definition strictEq (x : option string) (s : string) : bool :=
  match x with
  | Some t => String.eqb t s
  | None => false
  end.

(** [!s] for [s] a string or [undefined]. *)
Definition notString (s : option string) : bool :=
  match s with
  | Some t => negb (truthyString t)
  | None => true
  end.

(** * [api/tokens/[address].ts] *)

Module Tokens.

Definition ALLOWED_ORIGINS : list string := [].

Fixpoint allDigits (s : string) : bool :=
  match s with
  | EmptyString => true
  | String c s' =>
      ((48 <=? nat_of_ascii c) && (nat_of_ascii c <=? 57))%nat && allDigits s'
  end.

Fixpoint stripPrefix (p s : string) : option string :=
  match p, s with
  | EmptyString, _ => Some s
  | String a p', String b s' => if Ascii.eqb a b then stripPrefix p' s' else None
  | String _ _, EmptyString => None
  end.

(** [/^http:\/\/localhost(:\d+)?$/.test(origin)] *)
Definition localhostOrigin (origin : string) : bool :=
  match stripPrefix "http://localhost" origin with
  | Some EmptyString => true
  | Some (String c ds) => isChar c 58 && truthyString ds && allDigits ds
  | None => false
  end.

Definition isAllowedOrigin (origin : option string) : option string :=
  if notString origin then None
  else
    match origin with
    | Some o =>
        if existsb (String.eqb o) ALLOWED_ORIGINS then Some o
        else if localhostOrigin o then Some o
        else None
    | None => None
    end.

Definition setCorsHeaders (req : VercelRequest) (res : VercelResponse) : VercelResponse :=
  let origin := req_origin req in
  let allowedOrigin := isAllowedOrigin origin in
  match allowedOrigin with
  | Some o =>
      let res := setHeader res "Access-Control-Allow-Origin" o in
      let res := setHeader res "Access-Control-Allow-Methods" "GET, OPTIONS" in
      setHeader res "Access-Control-Allow-Headers" "Content-Type"
  | None => res
  end.

Definition SOL_MINT : Address := "So11111111111111111111111111111111111111112".

(** [tokens.reduce((sum, token) => sum + BigInt(token.amount), 0n)] *)
Fixpoint reduceAmounts (tokens : list HoldingAccount) (sum : bigint) : result bigint :=
  match tokens with
  | [] => Ok sum
  | token :: tokens' =>
      let? a := BigInt (account_amount token) in
      reduceAmounts tokens' (sum + a)%Z
  end.

(** The loop [for (const [mint, tokens] of Object.entries(holdingsData.tokens))]. *)
Fixpoint addBalances (entries : list (Address * list HoldingAccount))
    (mintAndTotalBalance : JsObject bigint) : result (JsObject bigint) :=
  match entries with
  | [] => Ok mintAndTotalBalance
  | (mint, tokens) :: entries' =>
      let mintAddress := mint in
      let? balanceToAdd := reduceAmounts tokens 0%Z in
      if (balanceToAdd >? 0)%Z
      then addBalances entries'
             (setProp mintAndTotalBalance mintAddress
                (orZero (getProp mintAndTotalBalance mintAddress) + balanceToAdd)%Z)
      else addBalances entries' mintAndTotalBalance
  end.

(** The callback of [tokenDataBatch.map]. *)
Definition toTokenData (mintAndTotalBalance : JsObject bigint)
    (token : JupiterTokenSearchApiResponse) : result TokenData :=
  let totalBalance := orZero (getProp mintAndTotalBalance (token_id token)) in
  let? value :=
    match token_usdPrice token with
    | Some usdPrice =>
        if truthyNumber usdPrice
        then
          let? d := BigIntOfNumber (token_decimals token) in
          let? unit := bigintPow 10%Z d in
          let? whole := bigintDiv totalBalance unit in
          Ok (Some (Number whole * usdPrice)%float)
        else Ok None
    | None => Ok None
    end in
  Ok {| mint := token_id token;
        amount := totalBalance;
        name := if String.eqb (token_id token) SOL_MINT then "Solana" else token_name token;
        symbol := token_symbol token;
        icon := stringOrNull (token_icon token);
        decimals := token_decimals token;
        usdPriceUnit := numberOrNull (token_usdPrice token);
        usdValue := value;
        jupiterIsVerified := boolOrFalse (token_isVerified token);
        priceChange24hPercent :=
          numberOrNull (match token_stats24h token with
                        | Some stats => priceChange stats
                        | None => None
                        end) |}.

Definition searchRequest (jupiterApiKey : string) (mintsForBatch : list Address)
  : FetchRequest :=
  {| url := "https://api.jup.ag/ultra/v1/search?"
            ++ searchParamsToString "query" (join "," mintsForBatch);
     headers := [("x-api-key", jupiterApiKey)] |}.

Definition holdingsRequest (jupiterApiKey : string) (address : Address) : FetchRequest :=
  {| url := "https://api.jup.ag/ultra/v1/holdings/" ++ address;
     headers := [("x-api-key", jupiterApiKey)] |}.

Section FetchTokens.

Variable up : Upstream.

(** The loop [for (let i = 0; i < mintsToFetch.length; i += 100)], entered
    at index [i] with the records pushed so far; [fuel] bounds the number
    of iterations. *)
Fixpoint searchLoop (jupiterApiKey : string)
    (mintAndTotalBalance : JsObject bigint) (mintsToFetch : list Address)
    (fuel : nat) (i : nat) (tokenData : list TokenData) : Async (list TokenData) :=
  if (i <? List.length mintsToFetch)%nat then
    match fuel with
    | O => unfinished
    | S fuel' =>
        let mintsForBatch := slice i (i + 100) mintsToFetch in
        let! tokenResponse := fetch up (searchRequest jupiterApiKey mintsForBatch) in
        if negb (ok tokenResponse)
        then throw (Error ("Error fetching token data: " ++ statusText tokenResponse))
        else
          let! tokenDataBatch := lift (searchJson tokenResponse) in
          let! batch := lift (mapResult (toTokenData mintAndTotalBalance) tokenDataBatch) in
          searchLoop jupiterApiKey mintAndTotalBalance mintsToFetch fuel' (i + 100)
            (tokenData ++ batch)
    end
  else ret tokenData.

Definition fetchTokens (address : Address) (jupiterApiKey : string)
  : Async (list TokenData) :=
  let! holdingsResponse := fetch up (holdingsRequest jupiterApiKey address) in
  if negb (ok holdingsResponse)
  then throw (Error ("Error fetching token holdings: " ++ statusText holdingsResponse))
  else
    let! holdingsData := lift (holdingsJson holdingsResponse) in
    let! native := lift (BigInt (holdings_amount holdingsData)) in
    let mintAndTotalBalance :=
      setProp [] "So11111111111111111111111111111111111111112" native in
    let! mintAndTotalBalance :=
      lift (addBalances (ObjectEntries (holdings_tokens holdingsData)) mintAndTotalBalance) in
    let tokenData := [] in
    let mintsToFetch := ObjectKeys mintAndTotalBalance in
    searchLoop jupiterApiKey mintAndTotalBalance mintsToFetch
      (List.length mintsToFetch) 0 tokenData.

End FetchTokens.

Section Handler.

(** [isAddress] of [@solana/kit]: the chain's address-format predicate. *)
Variable isAddress : string -> bool.

(** [process.env.JUPITER_API_KEY] *)
Variable JUPITER_API_KEY : option string.

Variable up : Upstream.

Definition handler (req : VercelRequest) : Async VercelResponse :=
  let res := setCorsHeaders req freshResponse in
  if strictEq (req_method req) "OPTIONS"
  then ret (send (status res 204) SendNull)
  else if notString (req_method req) || negb (strictEq (req_method req) "GET")
  then ret (send (status res 405) SendNull)
  else
    match req_address req with
    | QueryAbsent =>
        ret (send (status res 400) (JsonError "Address parameter is required"))
    | QueryArray _ =>
        ret (send (status res 400) (JsonError "Address parameter must be a single value"))
    | QueryString address =>
        if negb (truthyString address)
        then ret (send (status res 400) (JsonError "Address parameter is required"))
        else if negb (isAddress address)
        then ret (send (status res 400) (JsonError "Invalid address parameter"))
        else
          let jupiterApiKey := JUPITER_API_KEY in
          match jupiterApiKey with
          | None =>
              ret (send (status res 500) (JsonError "JUPITER_API_KEY is not configured"))
          | Some jupiterApiKey =>
              if negb (truthyString jupiterApiKey)
              then ret (send (status res 500) (JsonError "JUPITER_API_KEY is not configured"))
              else
                tryCatch
                  (let! tokens := fetchTokens up address jupiterApiKey in
                   let res := setHeader res "Cache-Control" "public, max-age=60" in
                   ret (send (status res 200) (JsonTokens tokens)))
                  (fun error =>
                     ret (send (status res 500) (JsonError "Failed to fetch tokens")))
          end
    end.

End Handler.

End Tokens.

(** * The earlier revision of the endpoint ([src/unnamed/part_000]) *)

Module Part000.

Definition SOL_MINT : Address := "So11111111111111111111111111111111111111112".

(** [tokens.reduce((sum, token) => sum + BigInt(token.amount), 0n)] *)
Fixpoint reduceAmounts (tokens : list HoldingAccount) (sum : bigint) : result bigint :=
  match tokens with
  | [] => Ok sum
  | token :: rest =>
      let? a := BigInt (account_amount token) in
      reduceAmounts rest (sum + a)%Z
  end.

(** The loop over [Object.entries(holdingsData.tokens)]. *)
Fixpoint addBalances (entries : list (Address * list HoldingAccount))
    (mintAndTotalBalance : JsObject bigint) : result (JsObject bigint) :=
  match entries with
  | [] => Ok mintAndTotalBalance
  | (mint, tokens) :: rest =>
      let? balanceToAdd := reduceAmounts tokens 0%Z in
      if (balanceToAdd >? 0)%Z
      then
        let previous := orZero (getProp mintAndTotalBalance mint) in
        addBalances rest (setProp mintAndTotalBalance mint (previous + balanceToAdd)%Z)
      else addBalances rest mintAndTotalBalance
  end.

(** The callback of [tokenDataBatch.map]. *)
Definition toTokenData (mintAndTotalBalance : JsObject bigint)
    (token : JupiterTokenSearchApiResponse) : result TokenData :=
  let totalBalance := orZero (getProp mintAndTotalBalance (token_id token)) in
  let? value :=
    match token_usdPrice token with
    | None => Ok None
    | Some usdPrice =>
        if truthyNumber usdPrice
        then
          let? d := BigIntOfNumber (token_decimals token) in
          let? unit := bigintPow 10%Z d in
          let? whole := bigintDiv totalBalance unit in
          Ok (Some (Number whole * usdPrice)%float)
        else Ok None
    end in
  Ok {| mint := token_id token;
        amount := totalBalance;
        name := if String.eqb (token_id token) SOL_MINT then "Solana" else token_name token;
        symbol := token_symbol token;
        icon := stringOrNull (token_icon token);
        decimals := token_decimals token;
        usdPriceUnit := numberOrNull (token_usdPrice token);
        usdValue := value;
        jupiterIsVerified := boolOrFalse (token_isVerified token);
        priceChange24hPercent :=
          numberOrNull (match token_stats24h token with
                        | None => None
                        | Some stats => priceChange stats
                        end) |}.

Definition apiKeyHeaders (jupiterApiKey : string) : list (string * string) :=
  [("x-api-key", jupiterApiKey)].

Section FetchTokens.

Variable up : Upstream.

(** The loop [for (let i = 0; i < mintsToFetch.length; i += 100)]. *)
Fixpoint searchLoop (jupiterApiKey : string)
    (mintAndTotalBalance : JsObject bigint) (mintsToFetch : list Address)
    (fuel : nat) (i : nat) (tokenData : list TokenData) : Async (list TokenData) :=
  if (i <? List.length mintsToFetch)%nat then
    match fuel with
    | O => unfinished
    | S fuel' =>
        let mintsForBatch := slice i (i + 100) mintsToFetch in
        let searchParams := searchParamsToString "query" (join "," mintsForBatch) in
        let! tokenResponse :=
          fetch up {| url := "https://api.jup.ag/ultra/v1/search?" ++ searchParams;
                      headers := apiKeyHeaders jupiterApiKey |} in
        if negb (ok tokenResponse)
        then throw (Error ("Error fetching token data: " ++ statusText tokenResponse))
        else
          let! tokenDataBatch := lift (searchJson tokenResponse) in
          let! batch := lift (mapResult (toTokenData mintAndTotalBalance) tokenDataBatch) in
          searchLoop jupiterApiKey mintAndTotalBalance mintsToFetch fuel' (i + 100)
            (tokenData ++ batch)
    end
  else ret tokenData.

Definition fetchTokens (address : Address) (jupiterApiKey : string)
  : Async (list TokenData) :=
  let! holdingsResponse :=
    fetch up {| url := "https://api.jup.ag/ultra/v1/holdings/" ++ address;
                headers := apiKeyHeaders jupiterApiKey |} in
  if negb (ok holdingsResponse)
  then throw (Error ("Error fetching token holdings: " ++ statusText holdingsResponse))
  else
    let! holdingsData := lift (holdingsJson holdingsResponse) in
    let! native := lift (BigInt (holdings_amount holdingsData)) in
    let! mintAndTotalBalance :=
      lift (addBalances (ObjectEntries (holdings_tokens holdingsData))
              (setProp [] "So11111111111111111111111111111111111111112" native)) in
    let mintsToFetch := ObjectKeys mintAndTotalBalance in
    searchLoop jupiterApiKey mintAndTotalBalance mintsToFetch
      (List.length mintsToFetch) 0 [].

End FetchTokens.

Section Handler.

Variable isAddress : string -> bool.
Variable JUPITER_API_KEY : option string.
Variable up : Upstream.

Definition handler (req : VercelRequest) : Async VercelResponse :=
  let res := freshResponse in
  match req_address req with
  | QueryAbsent =>
      ret (send (status res 400) (JsonError "Address parameter is required"))
  | QueryArray _ =>
      ret (send (status res 400) (JsonError "Address parameter must be a single value"))
  | QueryString address =>
      if negb (truthyString address)
      then ret (send (status res 400) (JsonError "Address parameter is required"))
      else if negb (isAddress address)
      then ret (send (status res 400) (JsonError "Invalid address parameter"))
      else
        match JUPITER_API_KEY with
        | None =>
            ret (send (status res 500) (JsonError "JUPITER_API_KEY is not configured"))
        | Some jupiterApiKey =>
            if negb (truthyString jupiterApiKey)
            then ret (send (status res 500) (JsonError "JUPITER_API_KEY is not configured"))
            else
              tryCatch
                (let! tokens := fetchTokens up address jupiterApiKey in
                 ret (send (status res 200) (JsonTokens tokens)))
                (fun error =>
                   ret (send (status res 500) (JsonError "Failed to fetch tokens")))
        end
  end.

End Handler.

End Part000.

(** * Specification vocabulary *)

(** The balance-collection stage of [fetchTokens]: the Balance Entry
    mapping built from a holdings payload. *)
Definition collectBalances (h : JupiterHoldingsApiResponse) : result (JsObject bigint) :=
  let? native := BigInt (holdings_amount h) in
  Tokens.addBalances (ObjectEntries (holdings_tokens h))
    (setProp [] "So11111111111111111111111111111111111111112" native).

(** An entry of the holdings payload whose amounts sum to more than zero. *)
Definition positiveEntry (e : Address * list HoldingAccount) : bool :=
  match Tokens.reduceAmounts (snd e) 0%Z with
  | Ok s => (s >? 0)%Z
  | Err _ => false
  end.

(** The amounts of an entry's accounts, read by [BigInt]. *)
Definition parsedAmounts (tokens : list HoldingAccount) (amounts : list Z) : Prop :=
  Forall2 (fun token a => BigInt (account_amount token) = Ok a) tokens amounts.

Definition zsum (l : list Z) : Z := fold_right Z.add 0%Z l.

Fixpoint distinct (l : list string) : bool :=
  match l with
  | [] => true
  | a :: l' => negb (existsb (String.eqb a) l') && distinct l'
  end.

Definition hasKey {V : Type} (o : JsObject V) (k : Address) : bool :=
  existsb (String.eqb k) (ObjectKeys o).

(** The number of batches for [n] identifiers: [ceil (n / 100)]. *)
Definition batchCount (n : nat) : nat := (n + 99) / 100.

(** The [j]-th batch of an identifier list. *)
Definition batchAt (mints : list Address) (j : nat) : list Address :=
  slice (100 * j) (100 * j + 100) mints.

Definition batches (mints : list Address) : list (list Address) :=
  map (batchAt mints) (seq 0 (batchCount (List.length mints))).

(** The provider answers request [req], made as the [k]-th of the run, with
    a success status and the given payload. *)
Definition answers (up : Upstream) (k : nat) (req : FetchRequest) (payload : Json) : Prop :=
  exists r, up k req = Resolved r /\ ok r = true /\ body r = Some payload.

(** A run in which every call succeeds: the provider answers the holdings
    request with the payload [h], from which the mapping [m] is collected,
    then the search request of each batch with a payload from which the
    batch's records are built. *)
Definition successfulRun (up : Upstream) (address : Address) (key : string)
    (h : JupiterHoldingsApiResponse) (m : JsObject bigint)
    (payloads : nat -> list JupiterTokenSearchApiResponse)
    (records : nat -> list TokenData) : Prop :=
  answers up 0 (Tokens.holdingsRequest key address) (JsonHoldings h)
  /\ collectBalances h = Ok m
  /\ forall j, (j < batchCount (length (ObjectKeys m)))%nat ->
       answers up (S j) (Tokens.searchRequest key (batchAt (ObjectKeys m) j))
         (JsonSearch (payloads j))
       /\ mapResult (Tokens.toTokenData m) (payloads j) = Ok (records j).

(** The search payload the provider serves for the [j]-th batch, and the
    records built from a payload; empty when there is none. *)
Definition servedPayload (up : Upstream) (key : string) (mints : list Address) (j : nat)
  : list JupiterTokenSearchApiResponse :=
  match up (S j) (Tokens.searchRequest key (batchAt mints j)) with
  | Resolved r =>
      match body r with
      | Some (JsonSearch l) => l
      | _ => []
      end
  | Rejected => []
  end.

Definition builtRecords (m : JsObject bigint) (payload : list JupiterTokenSearchApiResponse)
  : list TokenData :=
  match mapResult (Tokens.toTokenData m) payload with
  | Ok l => l
  | Err _ => []
  end.

(** ** Sample data *)

Definition okResponse (payload : Json) : FetchResponse :=
  {| ok := true; statusText := "OK"; body := Some payload |}.

(** A provider that serves a holdings payload, then search payloads. *)
Definition servesAll (h : JupiterHoldingsApiResponse)
    (payloads : nat -> list JupiterTokenSearchApiResponse) : Upstream :=
  fun k _ =>
    match k with
    | O => Resolved (okResponse (JsonHoldings h))
    | S j => Resolved (okResponse (JsonSearch (payloads j)))
    end.

Definition account (a : string) : HoldingAccount := {| account_amount := a |}.

Definition metadata (id : Address) (name_ : string) (d : number) (price : option number)
  : JupiterTokenSearchApiResponse :=
  {| token_id := id; token_name := name_; token_symbol := "SYM"; token_decimals := d;
     token_icon := None; token_usdPrice := price; token_isVerified := None;
     token_stats24h := None |}.

Definition mintNumber (i : nat) : Address :=
  ("MINT" ++ NilEmpty.string_of_uint (Nat.to_uint i))%string.

(** A wallet with 249 token identifiers besides the native one. *)
Definition holdings250 : JupiterHoldingsApiResponse :=
  {| holdings_amount := "0";
     holdings_tokens := map (fun i => (mintNumber i, [account "1"])) (seq 1 249) |}.

Definition balances250 : JsObject bigint :=
  (Tokens.SOL_MINT, 0%Z) :: map (fun i => (mintNumber i, 1%Z)) (seq 1 249).

(** The wallet of the end-to-end example: a native balance and one token
    held in two accounts. *)
Definition holdings2 : JupiterHoldingsApiResponse :=
  {| holdings_amount := "5000000000";
     holdings_tokens := [("MINT1", [account "100"; account "200"]);
                         ("MINT2", [account "0"])] |}.

Definition balances2 : JsObject bigint :=
  [(Tokens.SOL_MINT, 5000000000%Z); ("MINT1", 300%Z)].

Definition payloads2 (j : nat) : list JupiterTokenSearchApiResponse :=
  [metadata "MINT1" "One" 2%float None;
   metadata "OTHER" "Other" 0%float None].

Definition records2 (j : nat) : list TokenData :=
  match mapResult (Tokens.toTokenData balances2) (payloads2 j) with
  | Ok l => l
  | Err _ => []
  end.

(** Metadata for two identifiers of each batch of [holdings250], the later
    identifier first. *)
Definition payloads250 (j : nat) : list JupiterTokenSearchApiResponse :=
  match j with
  | 0 => [metadata (mintNumber 2) "Two" 0%float None;
          metadata (mintNumber 1) "One" 0%float None]
  | 1 => [metadata (mintNumber 150) "One hundred and fifty" 0%float None;
          metadata (mintNumber 100) "One hundred" 0%float None]
  | 2 => [metadata (mintNumber 249) "Two hundred and forty-nine" 0%float None;
          metadata (mintNumber 200) "Two hundred" 0%float None]
  | _ => []
  end%nat.

Definition records250 (j : nat) : list TokenData :=
  match mapResult (Tokens.toTokenData balances250) (payloads250 j) with
  | Ok l => l
  | Err _ => []
  end.

(** A provider that serves [holdings250] and the first search, and
    refuses the second search. *)
Definition refusesSecondBatch : Upstream :=
  fun k _ =>
    match k with
    | 0 => Resolved (okResponse (JsonHoldings holdings250))
    | 1 => Resolved (okResponse (JsonSearch [metadata (mintNumber 1) "One" 0%float None]))
    | _ => Resolved {| ok := false; statusText := "Too Many Requests"; body := None |}
    end%nat.

Definition getRequest (address : QueryValue) : VercelRequest :=
  {| req_method := Some "GET"; req_origin := None; req_address := address |}.

Definition optionsRequest : VercelRequest :=
  {| req_method := Some "OPTIONS"; req_origin := None; req_address := QueryAbsent |}.

(** The error response of the handler. *)
Definition errorResponse (req : VercelRequest) (code : nat) (message : string)
  : VercelResponse :=
  send (status (Tokens.setCorsHeaders req freshResponse) code) (JsonError message).

(** ** Serialising big integers *)

(** [z.toString()] for a bigint: the decimal numeral, with a minus sign
    when negative. *)
Definition bigintToString (z : bigint) : string := NilZero.string_of_int (Z.to_int z).

(** [BigInt.prototype.toJSON = function () { return this.toString(); }],
    the hook both revisions install so that [JSON.stringify] writes a
    bigint as a string. *)
Definition toJSON (this : bigint) : string := bigintToString this.


(** ** More sample data *)

Definition postRequest : VercelRequest :=
  {| req_method := Some "POST"; req_origin := Some "http://localhost:3000";
     req_address := QueryString "ADDRESS" |}.

(** A request as [req], sent from another origin. *)
Definition fromOrigin (origin : option string) (req : VercelRequest) : VercelRequest :=
  {| req_method := req_method req; req_origin := origin; req_address := req_address req |}.

(** A provider whose connection fails at every request. *)
Definition unreachable : Upstream := fun _ _ => Rejected.


(** A request as [req], sent with method GET. *)
Definition asGet (req : VercelRequest) : VercelRequest :=
  {| req_method := Some "GET"; req_origin := req_origin req; req_address := req_address req |}.

(** A wallet that holds nothing but the native asset, with a zero balance. *)
Definition emptyHoldings : JupiterHoldingsApiResponse :=
  {| holdings_amount := "0"; holdings_tokens := [] |}.

(** A holdings payload with an amount written as a decimal fraction. *)
Definition fractionalHoldings : JupiterHoldingsApiResponse :=
  {| holdings_amount := "1";
     holdings_tokens := [("MINT1", [account "0"; account "1.5"])] |}.


(** A provider that serves [holdings250], a sound first search payload, and
    a second one with a record whose [decimals] is negative. *)
Definition servesBadRecord : Upstream :=
  servesAll holdings250
    (fun j =>
       match j with
       | 0 => [metadata (mintNumber 1) "One" 6%float (Some 2%float)]
       | _ => [metadata (mintNumber 100) "One hundred" 0%float None;
               metadata (mintNumber 101) "One hundred and one" (-1)%float (Some 2%float)]
       end%nat).

(** * Objects keyed by addresses *)

Section ObjectFacts.

Context {V : Type}.
Implicit Types (o : JsObject V) (k : Address) (v : V).

Lemma getProp_setProp_same o k v : getProp (setProp o k v) k = Some v.
Proof.
  induction o as [|[k' v'] o IH]; simpl.
  - now rewrite String.eqb_refl.
  - destruct (String.eqb k' k) eqn:E; simpl; rewrite E; auto.
Qed.

Lemma getProp_setProp_other o k k' v :
  k <> k' -> getProp (setProp o k v) k' = getProp o k'.
Proof.
  intros Hne. induction o as [|[k0 v0] o IH]; simpl.
  - destruct (String.eqb_spec k k'); congruence.
  - destruct (String.eqb_spec k0 k) as [->|Hk]; simpl.
    + destruct (String.eqb_spec k k'); congruence.
    + now rewrite IH.
Qed.

Lemma getProp_None o k : getProp o k = None <-> ~ In k (ObjectKeys o).
Proof.
  induction o as [|[k' v'] o IH]; simpl.
  - tauto.
  - destruct (String.eqb_spec k' k) as [->|Hk].
    + split; [discriminate | tauto].
    + rewrite IH. tauto.
Qed.

Lemma getProp_Some_In o k v : getProp o k = Some v -> In k (ObjectKeys o).
Proof.
  intros H. destruct (in_dec string_dec k (ObjectKeys o)) as [|Hn]; auto.
  apply getProp_None in Hn. congruence.
Qed.

Lemma hasKey_In o k : hasKey o k = true <-> In k (ObjectKeys o).
Proof.
  unfold hasKey. rewrite existsb_exists. split.
  - intros (x & Hx & E). apply String.eqb_eq in E. now subst.
  - intros H. exists k. split; auto. apply String.eqb_refl.
Qed.

Lemma keys_setProp o k v :
  ObjectKeys (setProp o k v) =
  if hasKey o k then ObjectKeys o else ObjectKeys o ++ [k].
Proof.
  unfold hasKey. induction o as [|[k' v'] o IH]; simpl; auto.
  rewrite (String.eqb_sym k k').
  destruct (String.eqb k' k) eqn:E; simpl; auto.
  rewrite IH. destruct (existsb _ _); reflexivity.
Qed.

Lemma NoDup_setProp o k v : NoDup (ObjectKeys o) -> NoDup (ObjectKeys (setProp o k v)).
Proof.
  intros H. rewrite keys_setProp. destruct (hasKey o k) eqn:E; auto.
  apply NoDup_app; auto.
  - constructor; [intros [] | constructor].
  - intros x Hx [<-|[]]. apply hasKey_In in Hx. congruence.
Qed.

End ObjectFacts.

Lemma distinct_NoDup (l : list string) : distinct l = true -> NoDup l.
Proof.
  induction l as [|a l IH]; simpl; intros H; constructor;
    apply andb_true_iff in H; destruct H as [Ha Hl]; auto.
  intros Hin. apply negb_true_iff in Ha.
  assert (existsb (String.eqb a) l = true); [|congruence].
  apply existsb_exists. exists a. split; auto. apply String.eqb_refl.
Qed.

(** * Balance collection *)

Lemma orZero_Some (b : bigint) : orZero (Some b) = b.
Proof.
  unfold orZero, truthyBigint. destruct (Z.eqb_spec b 0); simpl; congruence.
Qed.

Lemma positiveEntry_true mint tokens s :
  Tokens.reduceAmounts tokens 0%Z = Ok s ->
  positiveEntry (mint, tokens) = (s >? 0)%Z.
Proof. unfold positiveEntry; simpl. now intros ->. Qed.

(** The loop over the entries, from any mapping [m0]: identifiers outside
    the entries are untouched, an entry with a positive sum is added to what
    was there, and new identifiers are appended in the order of the entries. *)
Lemma addBalances_spec (entries : list (Address * list HoldingAccount)) :
  NoDup (map fst entries) ->
  (forall mint tokens, In (mint, tokens) entries ->
     exists s, Tokens.reduceAmounts tokens 0%Z = Ok s) ->
  forall m0 : JsObject bigint,
  exists m,
    Tokens.addBalances entries m0 = Ok m
    /\ (forall mint, ~ In mint (map fst entries) -> getProp m mint = getProp m0 mint)
    /\ (forall mint tokens s,
          In (mint, tokens) entries ->
          Tokens.reduceAmounts tokens 0%Z = Ok s ->
          getProp m mint =
          if (s >? 0)%Z then Some (orZero (getProp m0 mint) + s)%Z else getProp m0 mint)
    /\ ObjectKeys m =
       ObjectKeys m0
       ++ map fst (filter (fun e => positiveEntry e && negb (hasKey m0 (fst e))) entries).
Proof.
  induction entries as [|[mint tokens] entries IH]; intros Hnd Hsum m0.
  - exists m0. simpl. rewrite app_nil_r. repeat split; auto. intros ? ? ? [].
  - inversion Hnd as [|? ? Hnotin Hnd']; subst.
    destruct (Hsum mint tokens (or_introl eq_refl)) as [s Hs].
    assert (Hsum' : forall mint' tokens', In (mint', tokens') entries ->
                      exists s', Tokens.reduceAmounts tokens' 0%Z = Ok s')
      by (intros; eapply Hsum; right; eauto).
    simpl. rewrite Hs. simpl.
    rewrite (positiveEntry_true mint tokens s Hs).
    destruct (s >? 0)%Z eqn:Hpos.
    + destruct (IH Hnd' Hsum' (setProp m0 mint (orZero (getProp m0 mint) + s)%Z))
        as (m & Hm & Hout & Hin & Hkeys).
      exists m. split; [exact Hm|]. split; [|split].
      * intros k Hk. rewrite Hout by tauto.
        apply getProp_setProp_other. intros ->. tauto.
      * intros k toks s' [E|Hk] Hs'.
        -- inversion E; subst. rewrite Hs in Hs'. inversion Hs'; subst.
           rewrite Hpos, Hout by exact Hnotin. apply getProp_setProp_same.
        -- rewrite (Hin k toks s' Hk Hs').
           assert (Hne : mint <> k).
           { intros ->. apply Hnotin. change k with (fst (k, toks)). now apply in_map. }
           now rewrite getProp_setProp_other.
      * rewrite Hkeys, keys_setProp. simpl.
        assert (Hfilter :
          filter (fun e => positiveEntry e
                           && negb (hasKey (setProp m0 mint (orZero (getProp m0 mint) + s)%Z) (fst e)))
                 entries
          = filter (fun e => positiveEntry e && negb (hasKey m0 (fst e))) entries).
        { apply filter_ext_in. intros [k toks] Hk. simpl. f_equal. f_equal.
          assert (Hne : k <> mint).
          { intros ->. apply Hnotin. change mint with (fst (mint, toks)). now apply in_map. }
          unfold hasKey. rewrite keys_setProp.
          destruct (hasKey m0 mint); auto.
          rewrite existsb_app. simpl.
          destruct (String.eqb_spec k mint); [contradiction|].
          now rewrite !orb_false_r. }
        rewrite Hfilter.
        destruct (hasKey m0 mint); simpl; auto. now rewrite <- app_assoc.
    + destruct (IH Hnd' Hsum' m0) as (m & Hm & Hout & Hin & Hkeys).
      exists m. split; [exact Hm|]. split; [|split].
      * intros k Hk. apply Hout. tauto.
      * intros k toks s' [E|Hk] Hs'.
        -- inversion E; subst. rewrite Hs in Hs'. inversion Hs'; subst.
           rewrite Hpos. now apply Hout.
        -- now apply (Hin k toks s').
      * simpl. exact Hkeys.
Qed.

Lemma reduceAmounts_parsed tokens : forall amounts acc,
  parsedAmounts tokens amounts ->
  Tokens.reduceAmounts tokens acc = Ok (acc + zsum amounts)%Z.
Proof.
  unfold parsedAmounts.
  induction tokens as [|t tokens IH]; intros amounts acc H; inversion H; subst; simpl.
  - now rewrite Z.add_0_r.
  - match goal with E : BigInt _ = Ok _ |- _ => rewrite E end. simpl.
    rewrite IH with (amounts := l') by assumption. f_equal. lia.
Qed.

(** Dropping entries of an object keeps its keys distinct. *)
Lemma filter_keys_distinct {V : Type} (keep : Address * V -> bool) (o : JsObject V) :
  NoDup (ObjectKeys o) -> NoDup (ObjectKeys (filter keep o)).
Proof.
  unfold ObjectKeys.
  induction o as [|[k v] o IH]; simpl; intros Hnd; [constructor|].
  inversion Hnd as [|? ? Hfresh Hrest]; subst.
  destruct (keep (k, v)); simpl; [constructor|]; auto.
  intros Hin. apply Hfresh. apply in_map_iff in Hin.
  destruct Hin as ([k' v'] & Hk & Hin). simpl in Hk. subst k'.
  apply filter_In in Hin. destruct Hin as [Hin _].
  change k with (fst (k, v')). now apply in_map.
Qed.

(** * Running against the provider *)

Lemma bind_fetch {A : Type} (up : Upstream) req (k : FetchResponse -> Async A) log :
  bind (fetch up req) k log =
  match up (length log) req with
  | Rejected => (Thrown FetchFailed, log ++ [req])
  | Resolved r => k r (log ++ [req])
  end.
Proof. unfold bind, fetch. destruct (up _ _); reflexivity. Qed.

Lemma bind_lift {A B : Type} (r : result A) (k : A -> Async B) log :
  bind (lift r) k log =
  match r with
  | Ok a => k a log
  | Err e => (Thrown e, log)
  end.
Proof. destruct r; reflexivity. Qed.

Lemma searchLoop_unfold up key m mints fuel i acc :
  Tokens.searchLoop up key m mints fuel i acc =
  if (i <? length mints)%nat then
    match fuel with
    | O => unfinished
    | S fuel' =>
        let! tokenResponse := fetch up (Tokens.searchRequest key (slice i (i + 100) mints)) in
        if negb (ok tokenResponse)
        then throw (Error ("Error fetching token data: " ++ statusText tokenResponse))
        else
          let! tokenDataBatch := lift (searchJson tokenResponse) in
          let! batch := lift (mapResult (Tokens.toTokenData m) tokenDataBatch) in
          Tokens.searchLoop up key m mints fuel' (i + 100) (acc ++ batch)
    end
  else ret acc.
Proof. destruct fuel; reflexivity. Qed.

Lemma batchCount_lt (j n : nat) : (100 * j < n <-> j < batchCount n)%nat.
Proof.
  unfold batchCount.
  pose proof (Nat.div_mod_eq (n + 99) 100).
  pose proof (Nat.mod_upper_bound (n + 99) 100).
  lia.
Qed.

Section SuccessfulSearch.

Variable up : Upstream.
Variable key : string.
Variable m : JsObject bigint.
Variable mints : list Address.
Variable payloads : nat -> list JupiterTokenSearchApiResponse.
Variable records : nat -> list TokenData.

Hypothesis search_answered :
  forall j, (j < batchCount (length mints))%nat ->
    answers up (S j) (Tokens.searchRequest key (batchAt mints j)) (JsonSearch (payloads j)).

Hypothesis records_built :
  forall j, (j < batchCount (length mints))%nat ->
    mapResult (Tokens.toTokenData m) (payloads j) = Ok (records j).

(** The loop entered at its [j]-th iteration, with enough fuel left, makes
    the remaining requests in order and pushes their records in order. *)
Lemma searchLoop_success : forall fuel j acc log,
  length log = S j ->
  (length mints <= fuel + 100 * j)%nat ->
  Tokens.searchLoop up key m mints fuel (100 * j) acc log =
  (Returned (acc ++ concat (map records (seq j (batchCount (length mints) - j)))),
   log ++ map (fun j => Tokens.searchRequest key (batchAt mints j)) (seq j (batchCount (length mints) - j))).
Proof.
  induction fuel as [|fuel IH]; intros j acc log Hlog Hfuel;
    rewrite searchLoop_unfold;
    destruct (Nat.ltb_spec (100 * j) (length mints)) as [Hlt|Hge].
  - lia.
  - assert (batchCount (length mints) - j = 0)%nat as ->
      by (pose proof (batchCount_lt j (length mints)); lia).
    simpl. now rewrite !app_nil_r.
  - assert (Hj : (j < batchCount (length mints))%nat) by (now apply batchCount_lt).
    rewrite bind_fetch, Hlog.
    destruct (search_answered j Hj) as (r & Hr & Hok & Hbody).
    unfold batchAt in Hr. rewrite Hr.
    rewrite Hok. simpl (negb true). cbv iota beta.
    unfold searchJson. rewrite Hbody, bind_lift. rewrite bind_lift, (records_built j Hj).
    replace (100 * j + 100)%nat with (100 * S j)%nat by lia.
    rewrite IH by (rewrite ?length_app; simpl; lia).
    replace (batchCount (length mints) - j)%nat with (S (batchCount (length mints) - S j)) by lia.
    simpl seq. simpl map. simpl concat.
    rewrite <- !app_assoc. simpl.
    unfold batchAt at 2.
    replace (100 * j + 100)%nat with (100 * S j)%nat by lia.
    reflexivity.
  - assert (batchCount (length mints) - j = 0)%nat as ->
      by (pose proof (batchCount_lt j (length mints)); lia).
    simpl. now rewrite !app_nil_r.
Qed.

End SuccessfulSearch.

(** Once the provider has served the holdings payload, the aggregation
    collects the balances and enters the search loop with them. *)
Lemma fetchTokens_collects up address key h :
  answers up 0 (Tokens.holdingsRequest key address) (JsonHoldings h) ->
  Tokens.fetchTokens up address key [] =
  match collectBalances h with
  | Ok m =>
      Tokens.searchLoop up key m (ObjectKeys m) (length (ObjectKeys m)) 0 []
        [Tokens.holdingsRequest key address]
  | Err e => (Thrown e, [Tokens.holdingsRequest key address])
  end.
Proof.
  intros Hholdings.
  unfold Tokens.fetchTokens.
  rewrite bind_fetch. simpl length.
  destruct Hholdings as (r & -> & Hok & Hbody).
  rewrite Hok. simpl (negb true). cbv iota beta.
  unfold holdingsJson. rewrite Hbody, bind_lift.
  unfold collectBalances.
  destruct (BigInt (holdings_amount h)) as [native|e]; [|reflexivity].
  unfold rbind. rewrite bind_lift, bind_lift. cbv zeta.
  destruct (Tokens.addBalances _ _); reflexivity.
Qed.

Lemma fetchTokens_success up key address h m payloads records :
  successfulRun up address key h m payloads records ->
  Tokens.fetchTokens up address key [] =
  (Returned (concat (map records (seq 0 (batchCount (length (ObjectKeys m)))))),
   Tokens.holdingsRequest key address
   :: map (Tokens.searchRequest key) (batches (ObjectKeys m))).
Proof.
  intros (Hholdings & Hm & Hsearch).
  rewrite (fetchTokens_collects up address key h Hholdings), Hm.
  rewrite (searchLoop_success up key m (ObjectKeys m) payloads records)
    with (j := 0%nat); try (simpl; lia).
  - rewrite Nat.sub_0_r. simpl. unfold batches. now rewrite map_map.
  - intros j Hj. now apply Hsearch.
  - intros j Hj. now apply Hsearch.
Qed.

(** Conversely, a loop that returns has had every remaining request
    answered and every record built. *)
Lemma searchLoop_returned up key m mints : forall fuel j acc log tokens log',
  length log = S j ->
  Tokens.searchLoop up key m mints fuel (100 * j) acc log = (Returned tokens, log') ->
  forall j', (j <= j' < batchCount (length mints))%nat ->
    answers up (S j') (Tokens.searchRequest key (batchAt mints j'))
      (JsonSearch (servedPayload up key mints j'))
    /\ mapResult (Tokens.toTokenData m) (servedPayload up key mints j')
       = Ok (builtRecords m (servedPayload up key mints j')).
Proof.
  induction fuel as [|fuel IH]; intros j acc log tokens log' Hlog Hrun j' Hj';
    rewrite searchLoop_unfold in Hrun;
    destruct (Nat.ltb_spec (100 * j) (length mints)) as [Hlt|Hge];
    try discriminate;
    try (pose proof (batchCount_lt j (length mints)); lia).
  rewrite bind_fetch, Hlog in Hrun.
  destruct (up (S j) _) as [|r] eqn:Hup; [discriminate|].
  destruct (ok r) eqn:Hok; simpl (negb _) in Hrun; cbv iota in Hrun; [|discriminate].
  rewrite bind_lift in Hrun.
  destruct (searchJson r) as [batch|e] eqn:Hjson; [|discriminate].
  rewrite bind_lift in Hrun.
  destruct (mapResult (Tokens.toTokenData m) batch) as [recs|e] eqn:Hrecs; [|discriminate].
  replace (100 * j + 100)%nat with (100 * S j)%nat in Hrun by lia.
  destruct (Nat.eq_dec j' j) as [->|Hne].
  - assert (Hbody : body r = Some (JsonSearch batch)).
    { unfold searchJson in Hjson. destruct (body r) as [[h|l]|]; congruence. }
    assert (Hserved : servedPayload up key mints j = batch).
    { unfold servedPayload, batchAt. now rewrite Hup, Hbody. }
    rewrite Hserved. split.
    + exists r. unfold batchAt. auto.
    + unfold builtRecords. now rewrite Hrecs.
  - eapply (IH (S j)); [|exact Hrun|lia]. rewrite length_app. simpl. lia.
Qed.

(** An aggregation that returns is a run in which every call succeeded. *)
Lemma fetchTokens_returned up address key tokens log :
  Tokens.fetchTokens up address key [] = (Returned tokens, log) ->
  exists h m,
    successfulRun up address key h m
      (servedPayload up key (ObjectKeys m))
      (fun j => builtRecords m (servedPayload up key (ObjectKeys m) j)).
Proof.
  intros Hrun.
  assert (Hfetch := Hrun). unfold Tokens.fetchTokens in Hfetch.
  rewrite bind_fetch in Hfetch. simpl length in Hfetch.
  destruct (up 0%nat (Tokens.holdingsRequest key address)) as [|r] eqn:Hup; [discriminate|].
  destruct (ok r) eqn:Hok; simpl (negb _) in Hfetch; cbv iota in Hfetch; [|discriminate].
  rewrite bind_lift in Hfetch.
  destruct (holdingsJson r) as [h|e] eqn:Hjson; [|discriminate].
  assert (Hbody : body r = Some (JsonHoldings h)).
  { unfold holdingsJson in Hjson. destruct (body r) as [[h'|l]|]; congruence. }
  assert (Hserved : answers up 0 (Tokens.holdingsRequest key address) (JsonHoldings h))
    by (exists r; auto).
  rewrite (fetchTokens_collects up address key h Hserved) in Hrun.
  destruct (collectBalances h) as [m|e] eqn:Hm; [|discriminate].
  exists h, m. split; [exact Hserved|]. split; [exact Hm|].
  intros j Hj.
  eapply (searchLoop_returned up key m (ObjectKeys m) _ 0%nat); [|exact Hrun|lia].
  reflexivity.
Qed.

(** C2.  Balance collection.  When the holdings payload parses, the
    mapping exists and: it holds each identifier once; the native
    identifier is in it whatever the top-level balance (zero included), with
    that balance when the payload lists no account for it; an identifier
    of the payload is in it exactly when its amounts sum to more than zero,
    with that sum added to what the mapping held for it (nothing, or for
    the native identifier the top-level balance); no other identifier is
    in it; no identifier but the native one maps to zero; and it is the
    mapping [fetchTokens] goes on with once the provider has served the
    payload. *)
Theorem balance_collection (h : JupiterHoldingsApiResponse) (native : bigint) :
  BigInt (holdings_amount h) = Ok native ->
  NoDup (ObjectKeys (holdings_tokens h)) ->
  (forall mint tokens, In (mint, tokens) (holdings_tokens h) ->
     exists amounts, parsedAmounts tokens amounts) ->
  exists m,
    collectBalances h = Ok m
    /\ NoDup (ObjectKeys m)
    /\ In Tokens.SOL_MINT (ObjectKeys m)
    /\ (~ In Tokens.SOL_MINT (ObjectKeys (holdings_tokens h)) ->
        getProp m Tokens.SOL_MINT = Some native)
    /\ (forall mint tokens amounts,
          In (mint, tokens) (holdings_tokens h) ->
          parsedAmounts tokens amounts ->
          getProp m mint =
          if String.eqb mint Tokens.SOL_MINT
          then Some (if (zsum amounts >? 0)%Z then native + zsum amounts else native)%Z
          else if (zsum amounts >? 0)%Z then Some (zsum amounts) else None)
    /\ (forall mint,
          mint <> Tokens.SOL_MINT ->
          ~ In mint (ObjectKeys (holdings_tokens h)) ->
          getProp m mint = None)
    /\ (forall mint v,
          mint <> Tokens.SOL_MINT -> getProp m mint = Some v -> (0 < v)%Z)
    /\ (forall up address key,
          answers up 0 (Tokens.holdingsRequest key address) (JsonHoldings h) ->
          Tokens.fetchTokens up address key [] =
          Tokens.searchLoop up key m (ObjectKeys m) (length (ObjectKeys m)) 0 []
            [Tokens.holdingsRequest key address]).
Proof.
  intros Hnative Hnd Hparsed.
  set (m0 := setProp (@nil (Address * bigint)) Tokens.SOL_MINT native).
  assert (Hsum : forall mint tokens, In (mint, tokens) (holdings_tokens h) ->
                   exists s, Tokens.reduceAmounts tokens 0%Z = Ok s).
  { intros mint tokens Hin. destruct (Hparsed _ _ Hin) as [amounts Ha].
    exists (0 + zsum amounts)%Z. apply reduceAmounts_parsed. exact Ha. }
  destruct (addBalances_spec (holdings_tokens h) Hnd Hsum m0)
    as (m & Hm & Hout & Hin & Hkeys).
  assert (Hentry : forall mint tokens amounts,
            In (mint, tokens) (holdings_tokens h) ->
            parsedAmounts tokens amounts ->
            getProp m mint =
            if String.eqb mint Tokens.SOL_MINT
            then Some (if (zsum amounts >? 0)%Z then native + zsum amounts else native)%Z
            else if (zsum amounts >? 0)%Z then Some (zsum amounts) else None).
  { intros mint tokens amounts Hmem Ha.
    rewrite (Hin mint tokens (zsum amounts) Hmem)
      by (rewrite (reduceAmounts_parsed _ _ 0%Z Ha); reflexivity).
    destruct (String.eqb_spec mint Tokens.SOL_MINT) as [->|Hne].
    - unfold m0. rewrite getProp_setProp_same, orZero_Some.
      destruct (zsum amounts >? 0)%Z; reflexivity.
    - unfold m0. rewrite getProp_setProp_other by congruence. simpl.
      destruct (zsum amounts >? 0)%Z; reflexivity. }
  assert (Hother : forall mint,
            mint <> Tokens.SOL_MINT ->
            ~ In mint (ObjectKeys (holdings_tokens h)) ->
            getProp m mint = None).
  { intros mint Hne Hnot. rewrite Hout by exact Hnot.
    unfold m0. rewrite getProp_setProp_other by congruence. reflexivity. }
  assert (Hcollect : collectBalances h = Ok m)
    by (unfold collectBalances; rewrite Hnative; exact Hm).
  exists m. split; [|split; [|split; [|split; [|split; [|split; [|split]]]]]].
  - exact Hcollect.
  - rewrite Hkeys. apply NoDup_app.
    + unfold m0. simpl. constructor; [intros [] | constructor].
    + apply filter_keys_distinct. exact Hnd.
    + intros k Hk1 Hk2. apply in_map_iff in Hk2. destruct Hk2 as ([k' t] & <- & Hf).
      apply filter_In in Hf. destruct Hf as [_ Hf]. simpl in Hf.
      apply andb_true_iff in Hf. destruct Hf as [_ Hf].
      apply hasKey_In in Hk1. simpl in Hk1. rewrite Hk1 in Hf. discriminate.
  - rewrite Hkeys. apply in_or_app. left. unfold m0. simpl. auto.
  - intros Hnot. rewrite Hout by exact Hnot. unfold m0. apply getProp_setProp_same.
  - exact Hentry.
  - exact Hother.
  - intros mint v Hne Hv.
    destruct (in_dec string_dec mint (ObjectKeys (holdings_tokens h))) as [Hmem|Hnot].
    + apply in_map_iff in Hmem. destruct Hmem as ([k tokens] & Hk & Hmem).
      simpl in Hk. subst k.
      destruct (Hparsed _ _ Hmem) as [amounts Ha].
      rewrite (Hentry _ _ _ Hmem Ha) in Hv.
      destruct (String.eqb_spec mint Tokens.SOL_MINT); [contradiction|].
      destruct (Z.gtb_spec (zsum amounts) 0); [|discriminate].
      inversion Hv; subst. assumption.
    + rewrite (Hother mint Hne Hnot) in Hv. discriminate.
  - intros up address key Hserved.
    rewrite (fetchTokens_collects up address key h Hserved), Hcollect. reflexivity.
Qed.

Lemma balance_collection_witness :
  exists m,
    collectBalances holdings2 = Ok m
    /\ ObjectKeys m = [Tokens.SOL_MINT; "MINT1"]
    /\ getProp m Tokens.SOL_MINT = Some 5000000000%Z
    /\ getProp m "MINT1" = Some 300%Z
    /\ getProp m "MINT2" = None.
Proof.
  destruct (balance_collection holdings2 5000000000%Z) as (m & Hm & _ & _ & Hnative & Hentry & _).
  - reflexivity.
  - apply distinct_NoDup. reflexivity.
  - intros mint tokens [E|[E|[]]]; inversion E; subst.
    + exists [100; 200]%Z. repeat constructor.
    + exists [0]%Z. repeat constructor.
  - exists m. split; [exact Hm|].
    split; [vm_compute in Hm; injection Hm as <-; reflexivity|].
    split; [apply Hnative; simpl; intuition discriminate|].
    split.
    + apply (Hentry "MINT1" [account "100"; account "200"] [100; 200]%Z);
        [left; reflexivity | repeat constructor].
    + apply (Hentry "MINT2" [account "0"] [0]%Z);
        [right; left; reflexivity | repeat constructor].
Defined.

(** ** The partition into batches *)

Lemma firstn_firstn_skipn {A : Type} (x y : nat) (l : list A) :
  firstn x l ++ firstn y (skipn x l) = firstn (x + y) l.
Proof.
  revert l. induction x as [|x IH]; intros [|a l]; simpl; auto.
  - now rewrite firstn_nil.
  - now rewrite IH.
Qed.

Lemma slice_app {A : Type} (a b c : nat) (l : list A) :
  (a <= b <= c)%nat -> slice a b l ++ slice b c l = slice a c l.
Proof.
  intros H. unfold slice.
  assert (skipn b l = skipn (b - a) (skipn a l)) as ->
    by (rewrite skipn_skipn; f_equal; lia).
  rewrite firstn_firstn_skipn. f_equal. lia.
Qed.

Lemma concat_batchAt (mints : list Address) (k j : nat) :
  concat (map (batchAt mints) (seq j k)) = slice (100 * j) (100 * (j + k)) mints.
Proof.
  revert j. induction k as [|k IH]; intros j; cbn [seq map concat].
  - unfold slice. replace (100 * (j + 0) - 100 * j)%nat with 0%nat by lia. reflexivity.
  - rewrite IH. unfold batchAt.
    replace (100 * j + 100)%nat with (100 * S j)%nat by lia.
    rewrite slice_app by lia. f_equal. lia.
Qed.

Lemma batches_concat (mints : list Address) : concat (batches mints) = mints.
Proof.
  unfold batches. rewrite concat_batchAt. unfold slice. rewrite Nat.mul_0_r, skipn_O.
  apply firstn_all2.
  pose proof (batchCount_lt (batchCount (length mints)) (length mints)). lia.
Qed.

Lemma batches_length (mints : list Address) :
  length (batches mints) = batchCount (length mints).
Proof. unfold batches. now rewrite length_map, length_seq. Qed.

Lemma batchAt_length (mints : list Address) (j : nat) :
  length (batchAt mints j) = Nat.min 100 (length mints - 100 * j).
Proof.
  unfold batchAt, slice. rewrite length_firstn, length_skipn. f_equal. lia.
Qed.

Lemma batches_nth (mints : list Address) (j : nat) :
  (j < batchCount (length mints))%nat ->
  nth_error (batches mints) j = Some (batchAt mints j).
Proof.
  intros H. unfold batches.
  rewrite nth_error_map, nth_error_seq.
  destruct (Nat.ltb_spec j (batchCount (length mints))); [reflexivity | lia].
Qed.

Lemma servesAll_run address key h m payloads records :
  collectBalances h = Ok m ->
  (forall j, mapResult (Tokens.toTokenData m) (payloads j) = Ok (records j)) ->
  successfulRun (servesAll h payloads) address key h m payloads records.
Proof.
  intros Hm Hrec. split; [|split; [exact Hm|]].
  - eexists. repeat split.
  - intros j _. split; [|apply Hrec]. eexists. repeat split.
Qed.

Lemma run250 :
  successfulRun (servesAll holdings250 (fun _ => [])) "ADDRESS" "KEY" holdings250 balances250
    (fun _ => []) (fun _ => []).
Proof. apply servesAll_run; [vm_compute; reflexivity | reflexivity]. Qed.

Lemma run2 :
  successfulRun (servesAll holdings2 payloads2) "ADDRESS" "KEY" holdings2 balances2
    payloads2 records2.
Proof. apply servesAll_run; [vm_compute; reflexivity | intros j; vm_compute; reflexivity]. Qed.

(** C3.  Batching.  In a run where every call succeeds, the requests are
    the holdings request followed by one search request per batch, where
    the batches cut the identifier list, in its order, into consecutive
    slices of 100 (the last one shorter); there are [ceil (n / 100)] of
    them; each request's [query] parameter is its batch joined by commas;
    250 identifiers give batches of 100, 100 and 50. *)
Theorem metadata_batching up key address h m payloads records :
  successfulRun up address key h m payloads records ->
  exists tokens,
    Tokens.fetchTokens up address key [] =
    (Returned tokens,
     Tokens.holdingsRequest key address
     :: map (Tokens.searchRequest key) (batches (ObjectKeys m)))
    /\ (forall batch,
          url (Tokens.searchRequest key batch) =
          ("https://api.jup.ag/ultra/v1/search?query=" ++ formEncode (join "," batch))%string)
    /\ length (batches (ObjectKeys m)) = ((length (ObjectKeys m) + 99) / 100)%nat
    /\ (length (ObjectKeys m) <= 100 * length (batches (ObjectKeys m))
        /\ forall k, length (ObjectKeys m) <= 100 * k -> length (batches (ObjectKeys m)) <= k)%nat
    /\ concat (batches (ObjectKeys m)) = ObjectKeys m
    /\ (forall j, (j < length (batches (ObjectKeys m)))%nat ->
          nth_error (batches (ObjectKeys m)) j
          = Some (slice (100 * j) (100 * j + 100) (ObjectKeys m))
          /\ length (slice (100 * j) (100 * j + 100) (ObjectKeys m))
             = Nat.min 100 (length (ObjectKeys m) - 100 * j))
    /\ (length (ObjectKeys m) = 250%nat ->
        map (@length Address) (batches (ObjectKeys m)) = [100; 100; 50]%nat).
Proof.
  intros Hrun. eexists. split; [apply (fetchTokens_success _ _ _ _ _ _ _ Hrun)|].
  split; [reflexivity|]. split; [apply batches_length|].
  rewrite batches_length. split; [|split; [apply batches_concat|split]].
  - split.
    + pose proof (batchCount_lt (batchCount (length (ObjectKeys m))) (length (ObjectKeys m))).
      lia.
    + intros k Hk.
      pose proof (batchCount_lt k (length (ObjectKeys m))). lia.
  - intros j Hj. split; [now apply batches_nth | apply batchAt_length].
  - intros H250. unfold batches. rewrite H250.
    change (batchCount 250) with 3%nat. cbn [seq map].
    rewrite !batchAt_length, H250. reflexivity.
Qed.

Lemma metadata_batching_witness :
  exists tokens,
    Tokens.fetchTokens (servesAll holdings250 (fun _ => [])) "ADDRESS" "KEY" [] =
    (Returned tokens,
     Tokens.holdingsRequest "KEY" "ADDRESS"
     :: map (Tokens.searchRequest "KEY") (batches (ObjectKeys balances250)))
    /\ map (@length Address) (batches (ObjectKeys balances250)) = [100; 100; 50]%nat.
Proof.
  destruct (metadata_batching (servesAll holdings250 (fun _ => [])) "KEY" "ADDRESS"
              holdings250 balances250 (fun _ => []) (fun _ => []) run250)
    as (tokens & Hrun & _ & _ & _ & _ & _ & H250).
  exists tokens. split; [exact Hrun|]. apply H250. reflexivity.
Defined.

(** * The records *)

(** The fields of a record that was built, and what building it needed. *)
Lemma toTokenData_Ok m token t :
  Tokens.toTokenData m token = Ok t ->
  mint t = token_id token
  /\ amount t = orZero (getProp m (token_id token))
  /\ name t = (if String.eqb (token_id token) Tokens.SOL_MINT
               then "Solana" else token_name token)
  /\ symbol t = token_symbol token
  /\ icon t = stringOrNull (token_icon token)
  /\ decimals t = token_decimals token
  /\ usdPriceUnit t = numberOrNull (token_usdPrice token)
  /\ jupiterIsVerified t = boolOrFalse (token_isVerified token)
  /\ priceChange24hPercent t =
     numberOrNull (match token_stats24h token with
                   | Some stats => priceChange stats
                   | None => None
                   end).
Proof.
  unfold Tokens.toTokenData. intros H.
  match type of H with rbind ?v _ = _ => destruct v as [value|e] end;
    [|discriminate].
  simpl in H. inversion H; subst; simpl. repeat split; reflexivity.
Qed.

(** A record is always built when the price is absent or falsy. *)
Lemma toTokenData_no_price m token :
  numberOrNull (token_usdPrice token) = None ->
  exists t, Tokens.toTokenData m token = Ok t /\ usdValue t = None.
Proof.
  unfold Tokens.toTokenData, numberOrNull. intros H.
  destruct (token_usdPrice token) as [p|]; [destruct (truthyNumber p); [discriminate|]|];
    simpl; eexists; split; reflexivity.
Qed.

(** With a price, the record is built when [decimals] is a natural number. *)
Lemma toTokenData_price m token usdPrice d :
  token_usdPrice token = Some usdPrice ->
  truthyNumber usdPrice = true ->
  BigIntOfNumber (token_decimals token) = Ok d ->
  (0 <= d)%Z ->
  exists t,
    Tokens.toTokenData m token = Ok t
    /\ usdValue t =
       Some (Number (Z.quot (orZero (getProp m (token_id token))) (10 ^ d)) * usdPrice)%float.
Proof.
  intros Hprice Htruthy Hd Hnonneg.
  unfold Tokens.toTokenData. rewrite Hprice, Htruthy, Hd. simpl.
  unfold bigintPow. destruct (Z.ltb_spec d 0); [lia|]. simpl.
  unfold bigintDiv.
  destruct (Z.eqb_spec (10 ^ d) 0) as [E|_].
  - pose proof (Z.pow_pos_nonneg 10 d). lia.
  - simpl. eexists. split; reflexivity.
Qed.

Lemma mapResult_Forall2 {A B : Type} (f : A -> result B) (l : list A) : forall l',
  mapResult f l = Ok l' -> Forall2 (fun a b => f a = Ok b) l l'.
Proof.
  induction l as [|a l IH]; simpl; intros l' H.
  - inversion H. constructor.
  - destruct (f a) as [b|e] eqn:Ea; [|discriminate]. simpl in H.
    destruct (mapResult f l) as [bs|e]; [|discriminate]. simpl in H.
    inversion H; subst. constructor; auto.
Qed.

Lemma Forall2_concat_map {A B : Type} (R : A -> B -> Prop)
    (f : nat -> list A) (g : nat -> list B) (js : list nat) :
  (forall j, In j js -> Forall2 R (f j) (g j)) ->
  Forall2 R (concat (map f js)) (concat (map g js)).
Proof.
  induction js as [|j js IH]; simpl; intros H; [constructor|].
  apply Forall2_app; auto.
Qed.

Lemma successfulRun_records up address key h m payloads records :
  successfulRun up address key h m payloads records ->
  Forall2 (fun token t => Tokens.toTokenData m token = Ok t)
    (concat (map payloads (seq 0 (batchCount (length (ObjectKeys m))))))
    (concat (map records (seq 0 (batchCount (length (ObjectKeys m)))))).
Proof.
  intros (_ & _ & Hsearch). apply Forall2_concat_map.
  intros j Hj. apply in_seq in Hj. apply mapResult_Forall2. apply Hsearch. lia.
Qed.

Lemma Forall2_map_eq {A B C : Type} (R : A -> B -> Prop) (f : A -> C) (g : B -> C) l l' :
  Forall2 R l l' -> (forall a b, R a b -> g b = f a) -> map g l' = map f l.
Proof.
  intros H HR. induction H; simpl; [reflexivity|]. f_equal; auto.
Qed.

(** C5.  The output follows the metadata.  In a run where every call
    succeeds, the output pairs off, in order, with the metadata records of
    the batch responses: one record each, carrying the metadata record's
    identifier and the mapping's balance for it, zero when the mapping has
    none.  An identifier of the mapping that no metadata record names has no
    record in the output. *)
Theorem output_follows_metadata up key address h m payloads records :
  successfulRun up address key h m payloads records ->
  let found := concat (map payloads (seq 0 (batchCount (length (ObjectKeys m))))) in
  exists tokens log,
    Tokens.fetchTokens up address key [] = (Returned tokens, log)
    /\ Forall2 (fun token t =>
                  Tokens.toTokenData m token = Ok t
                  /\ mint t = token_id token
                  /\ amount t = orZero (getProp m (token_id token))
                  /\ (getProp m (token_id token) = None -> amount t = 0%Z))
         found tokens
    /\ length tokens = length found
    /\ (forall id,
          In id (ObjectKeys m) ->
          ~ In id (map token_id found) ->
          ~ In id (map mint tokens)).
Proof.
  intros Hrun found.
  pose proof (successfulRun_records _ _ _ _ _ _ _ Hrun) as Hrec. fold found in Hrec.
  do 2 eexists. split; [apply (fetchTokens_success _ _ _ _ _ _ _ Hrun)|].
  split; [|split].
  - eapply Forall2_impl; [|exact Hrec]. intros token t Ht. split; [exact Ht|].
    destruct (toTokenData_Ok _ _ _ Ht) as (Hmint & Hamount & _).
    repeat split; auto. intros Hnone. now rewrite Hamount, Hnone.
  - symmetry. eapply Forall2_length. exact Hrec.
  - intros id _ Hnot Hin. apply Hnot.
    rewrite <- (Forall2_map_eq _ token_id mint _ _ Hrec); [exact Hin|].
    intros token t Ht. now destruct (toTokenData_Ok _ _ _ Ht).
Qed.

Lemma output_follows_metadata_witness :
  exists tokens log,
    Tokens.fetchTokens (servesAll holdings2 payloads2) "ADDRESS" "KEY" [] = (Returned tokens, log)
    /\ map mint tokens = ["MINT1"; "OTHER"]
    /\ map amount tokens = [300; 0]%Z
    /\ ObjectKeys balances2 = [Tokens.SOL_MINT; "MINT1"].
Proof.
  destruct (output_follows_metadata (servesAll holdings2 payloads2) "KEY" "ADDRESS"
              holdings2 balances2 payloads2 records2 run2)
    as (tokens & log & Hrun & _).
  exists tokens, log. split; [exact Hrun|].
  vm_compute in Hrun. inversion Hrun. repeat split; reflexivity.
Defined.

Lemma addBalances_Ok_sums entries : forall m0 m,
  Tokens.addBalances entries m0 = Ok m ->
  forall mint tokens, In (mint, tokens) entries ->
    exists s, Tokens.reduceAmounts tokens 0%Z = Ok s.
Proof.
  induction entries as [|[k toks] entries IH]; simpl; intros m0 m H mint tokens Hin;
    [contradiction|].
  destruct (Tokens.reduceAmounts toks 0%Z) as [s|e] eqn:Es; [|discriminate].
  simpl in H. destruct Hin as [E|Hin].
  - inversion E; subst. eauto.
  - destruct (s >? 0)%Z; eapply IH; eauto.
Qed.

(** The identifier list: the native identifier, then the other identifiers
    with a positive sum, in the order of the holdings payload. *)
Lemma collectBalances_keys h m :
  collectBalances h = Ok m ->
  NoDup (ObjectKeys (holdings_tokens h)) ->
  ObjectKeys m =
  Tokens.SOL_MINT
  :: map fst (filter (fun e => positiveEntry e && negb (String.eqb (fst e) Tokens.SOL_MINT))
                (holdings_tokens h)).
Proof.
  unfold collectBalances. intros Hm Hnd.
  destruct (BigInt (holdings_amount h)) as [native|e]; [|discriminate].
  unfold rbind in Hm.
  destruct (addBalances_spec (holdings_tokens h) Hnd (addBalances_Ok_sums _ _ _ Hm)
              (setProp [] Tokens.SOL_MINT native))
    as (m' & Hm' & _ & _ & Hkeys).
  change Tokens.SOL_MINT with "So11111111111111111111111111111111111111112" in Hm'.
  unfold ObjectEntries in Hm. rewrite Hm in Hm'. inversion Hm'; subst m'.
  rewrite Hkeys. simpl. f_equal. f_equal. apply filter_ext.
  intros [k toks]. unfold hasKey. simpl. now rewrite orb_false_r.
Qed.

(** C6.  Output order.  In a run where every call succeeds, the requests
    follow the identifier list cut into batches, the identifier list being
    in insertion order (the native identifier, then the holdings payload's
    identifiers with a positive sum in the payload's order); the output is
    the records of the first batch response, then those of the second, and
    so on, each batch's records in the order of its response. *)
Theorem output_order up key address h m payloads records :
  successfulRun up address key h m payloads records ->
  NoDup (ObjectKeys (holdings_tokens h)) ->
  let count := batchCount (length (ObjectKeys m)) in
  exists tokens,
    Tokens.fetchTokens up address key [] =
    (Returned tokens,
     Tokens.holdingsRequest key address
     :: map (Tokens.searchRequest key) (batches (ObjectKeys m)))
    /\ ObjectKeys m =
       Tokens.SOL_MINT
       :: map fst (filter (fun e => positiveEntry e
                                    && negb (String.eqb (fst e) Tokens.SOL_MINT))
                     (holdings_tokens h))
    /\ tokens = concat (map records (seq 0 count))
    /\ (forall j, (j < count)%nat ->
          Forall2 (fun token t => Tokens.toTokenData m token = Ok t)
            (payloads j) (records j))
    /\ map mint tokens = concat (map (fun j => map token_id (payloads j)) (seq 0 count)).
Proof.
  intros Hrun Hnd count.
  exists (concat (map records (seq 0 count))).
  split; [apply (fetchTokens_success _ _ _ _ _ _ _ Hrun)|].
  destruct Hrun as (_ & Hm & Hsearch).
  split; [now apply collectBalances_keys|]. split; [reflexivity|].
  assert (Hbatch : forall j, (j < count)%nat ->
            Forall2 (fun token t => Tokens.toTokenData m token = Ok t)
              (payloads j) (records j))
    by (intros j Hj; apply mapResult_Forall2; now apply Hsearch).
  split; [exact Hbatch|].
  rewrite concat_map, map_map. f_equal. apply map_ext_in.
  intros j Hj. apply in_seq in Hj.
  apply (Forall2_map_eq _ token_id mint _ _ (Hbatch j ltac:(lia))).
  intros token t Ht. now destruct (toTokenData_Ok _ _ _ Ht).
Qed.

Lemma run250_found :
  successfulRun (servesAll holdings250 payloads250) "ADDRESS" "KEY" holdings250 balances250
    payloads250 records250.
Proof.
  apply servesAll_run; [vm_compute; reflexivity|].
  intros [|[|[|j]]]; vm_compute; reflexivity.
Qed.

Lemma output_order_witness :
  exists tokens,
    Tokens.fetchTokens (servesAll holdings250 payloads250) "ADDRESS" "KEY" [] =
    (Returned tokens,
     Tokens.holdingsRequest "KEY" "ADDRESS"
     :: map (Tokens.searchRequest "KEY") (batches (ObjectKeys balances250)))
    /\ map mint tokens =
       [mintNumber 2; mintNumber 1; mintNumber 150; mintNumber 100;
        mintNumber 249; mintNumber 200].
Proof.
  destruct (output_order (servesAll holdings250 payloads250) "KEY" "ADDRESS"
              holdings250 balances250 payloads250 records250 run250_found)
    as (tokens & Hrun & _ & _ & _ & Hmints).
  - apply distinct_NoDup. vm_compute. reflexivity.
  - exists tokens. split; [exact Hrun|]. rewrite Hmints. vm_compute. reflexivity.
Defined.

(** C1.  [usdValue] truncates before it multiplies.  For a metadata record
    with a truthy price, a record that is built has [usdValue] equal to
    [Number (amount / 10 ^ decimals) * usdPrice], the division being the
    truncating division of big integers; the record is built whenever
    [decimals] is a natural number; and a raw amount of 1500000 with 6
    decimals at price 2.0 is valued 2.0, not 3.0. *)
Theorem usdValue_truncates m token usdPrice :
  token_usdPrice token = Some usdPrice ->
  truthyNumber usdPrice = true ->
  (forall t,
     Tokens.toTokenData m token = Ok t ->
     usdPriceUnit t = Some usdPrice
     /\ exists d,
          BigIntOfNumber (token_decimals token) = Ok d /\ (0 <= d)%Z
          /\ usdValue t = Some (Number (Z.quot (amount t) (10 ^ d)) * usdPrice)%float)
  /\ (forall d,
        BigIntOfNumber (token_decimals token) = Ok d -> (0 <= d)%Z ->
        exists t, Tokens.toTokenData m token = Ok t)
  /\ (getProp m (token_id token) = Some 1500000%Z ->
      token_decimals token = 6%float ->
      usdPrice = 2%float ->
      exists t,
        Tokens.toTokenData m token = Ok t
        /\ usdValue t = Some 2%float /\ usdValue t <> Some 3%float).
Proof.
  intros Hprice Htruthy. split; [|split].
  - intros t Ht.
    destruct (toTokenData_Ok _ _ _ Ht) as (_ & Hamount & _ & _ & _ & _ & Hunit & _).
    split; [rewrite Hunit, Hprice; simpl; now rewrite Htruthy|].
    destruct (BigIntOfNumber (token_decimals token)) as [d|e] eqn:Hd.
    + destruct (Z.ltb_spec d 0) as [Hneg|Hnonneg].
      * unfold Tokens.toTokenData in Ht. rewrite Hprice, Htruthy, Hd in Ht.
        simpl in Ht. unfold bigintPow in Ht.
        destruct (Z.ltb_spec d 0); [discriminate | lia].
      * exists d. split; [reflexivity|]. split; [exact Hnonneg|].
        destruct (toTokenData_price m token usdPrice d Hprice Htruthy Hd Hnonneg)
          as (t' & Ht' & Hvalue).
        rewrite Ht in Ht'. inversion Ht'; subst t'. now rewrite Hamount.
    + unfold Tokens.toTokenData in Ht. rewrite Hprice, Htruthy, Hd in Ht. discriminate.
  - intros d Hd Hnonneg.
    destruct (toTokenData_price m token usdPrice d Hprice Htruthy Hd Hnonneg) as (t & Ht & _).
    now exists t.
  - intros Hbalance Hdecimals ->.
    assert (Hd : BigIntOfNumber (token_decimals token) = Ok 6%Z)
      by (rewrite Hdecimals; vm_compute; reflexivity).
    destruct (toTokenData_price m token 2%float 6%Z Hprice Htruthy Hd ltac:(lia))
      as (t & Ht & Hvalue).
    exists t. split; [exact Ht|]. rewrite Hvalue, Hbalance.
    split; vm_compute; [reflexivity | discriminate].
Qed.

Lemma usdValue_truncates_witness :
  exists t,
    Tokens.toTokenData [("MINT1", 1500000%Z)] (metadata "MINT1" "One" 6%float (Some 2%float))
    = Ok t
    /\ usdValue t = Some 2%float /\ usdValue t <> Some 3%float.
Proof.
  apply (usdValue_truncates [("MINT1", 1500000%Z)]
           (metadata "MINT1" "One" 6%float (Some 2%float)) 2%float);
    reflexivity.
Defined.

(** C8.  The native asset's name.  A record built from a metadata record
    whose identifier is the native mint is named "Solana", whatever name the
    metadata carries; any other record keeps the metadata's name. *)
Theorem native_name m token t :
  Tokens.toTokenData m token = Ok t ->
  Tokens.SOL_MINT = "So11111111111111111111111111111111111111112"
  /\ (token_id token = Tokens.SOL_MINT -> name t = "Solana")
  /\ (token_id token <> Tokens.SOL_MINT -> name t = token_name token).
Proof.
  intros Ht. destruct (toTokenData_Ok _ _ _ Ht) as (_ & _ & Hname & _).
  split; [reflexivity|]. rewrite Hname.
  destruct (String.eqb_spec (token_id token) Tokens.SOL_MINT); split; congruence.
Qed.

Lemma native_name_witness :
  exists t,
    Tokens.toTokenData balances2 (metadata Tokens.SOL_MINT "Wrapped SOL" 9%float (Some 2%float))
    = Ok t
    /\ name t = "Solana".
Proof.
  eexists. split; [vm_compute; reflexivity|].
  apply (native_name balances2
           (metadata Tokens.SOL_MINT "Wrapped SOL" 9%float (Some 2%float)));
    [vm_compute|]; reflexivity.
Defined.

(** C9.  Optional fields go by truthiness.  A price equal to 0 gives a
    record whose [usdPriceUnit] and [usdValue] are both [null]; in any
    record that is built, a [stats24h.priceChange] equal to 0 gives
    [priceChange24hPercent] [null], an empty [icon] gives [icon] [null], and
    [isVerified] false or absent gives [jupiterIsVerified] false. *)
Theorem optional_fields_by_truthiness m token :
  (forall usdPrice,
     token_usdPrice token = Some usdPrice ->
     (usdPrice =? 0)%float = true ->
     exists t,
       Tokens.toTokenData m token = Ok t /\ usdPriceUnit t = None /\ usdValue t = None)
  /\ (forall t,
        Tokens.toTokenData m token = Ok t ->
        (forall stats change,
           token_stats24h token = Some stats ->
           priceChange stats = Some change ->
           (change =? 0)%float = true ->
           priceChange24hPercent t = None)
        /\ (token_icon token = Some "" -> icon t = None)
        /\ (token_isVerified token = Some false \/ token_isVerified token = None ->
            jupiterIsVerified t = false)).
Proof.
  assert (Hzero : forall x : number, (x =? 0)%float = true -> numberOrNull (Some x) = None).
  { intros x Hx. unfold numberOrNull, truthyNumber, PrimFloat.is_zero.
    change zero with 0%float. now rewrite Hx. }
  split.
  - intros usdPrice Hprice Hp.
    destruct (toTokenData_no_price m token) as (t & Ht & Hvalue);
      [rewrite Hprice; now apply Hzero|].
    exists t. split; [exact Ht|]. split; [|exact Hvalue].
    destruct (toTokenData_Ok _ _ _ Ht) as (_ & _ & _ & _ & _ & _ & Hunit & _).
    rewrite Hunit, Hprice. now apply Hzero.
  - intros t Ht.
    destruct (toTokenData_Ok _ _ _ Ht)
      as (_ & _ & _ & _ & Hicon & _ & _ & Hverified & Hchange).
    split; [|split].
    + intros stats change Hstats Hsome Hc. rewrite Hchange, Hstats, Hsome. now apply Hzero.
    + intros Hempty. rewrite Hicon, Hempty. reflexivity.
    + intros [H|H]; rewrite Hverified, H; reflexivity.
Qed.

(** * Failures *)

(** Two answers to the same request of the same run are the same answer. *)
Ltac same_response Hfirst Hsecond :=
  try rewrite Hfirst in Hsecond;
  first [ discriminate Hsecond
        | injection Hsecond as <-; first [reflexivity | congruence] ].

(** Whatever the provider does, the loop only appends to the log; a request
    that was refused (answered with a non-success status) is the last one
    made, and the loop then throws the error that carries its status text. *)
Lemma searchLoop_refused up key m mints : forall fuel i acc log out log',
  Tokens.searchLoop up key m mints fuel i acc log = (out, log') ->
  exists new,
    log' = log ++ new
    /\ forall k req r,
         nth_error new k = Some req ->
         up (length log + k)%nat req = Resolved r ->
         ok r = false ->
         out = Thrown (Error ("Error fetching token data: " ++ statusText r))
         /\ length new = S k.
Proof.
  assert (Hone : forall log req (out : outcome (list TokenData)),
            (forall r, up (length log) req = Resolved r -> ok r = false ->
                       out = Thrown (Error ("Error fetching token data: " ++ statusText r))) ->
            exists new : list FetchRequest,
              log ++ [req] = log ++ new
              /\ forall k req' r,
                   nth_error new k = Some req' ->
                   up (length log + k)%nat req' = Resolved r ->
                   ok r = false ->
                   out = Thrown (Error ("Error fetching token data: " ++ statusText r))
                   /\ length new = S k).
  { intros log req out H. exists [req]. split; [reflexivity|].
    intros [|k] req' r Hnth Hup Hok.
    - simpl in Hnth. inversion Hnth; subst req'. rewrite Nat.add_0_r in Hup.
      split; [eauto | reflexivity].
    - simpl in Hnth. now rewrite nth_error_nil in Hnth. }
  induction fuel as [|fuel IH]; intros i acc log out log' Hrun;
    rewrite searchLoop_unfold in Hrun;
    destruct (i <? length mints)%nat;
    try (unfold ret, unfinished in Hrun; injection Hrun as <- <-; exists []; split;
         [now rewrite app_nil_r | intros k ? ? Hnth; now rewrite nth_error_nil in Hnth]).
  rewrite bind_fetch in Hrun.
  set (req := Tokens.searchRequest key (slice i (i + 100) mints)) in *.
  destruct (up (length log) req) as [|r0] eqn:Hup0.
  { unfold throw in Hrun; injection Hrun as <- <-. apply Hone. intros r Hr Hok. same_response Hup0 Hr. }
  destruct (ok r0) eqn:Hok0; simpl (negb _) in Hrun; cbv iota in Hrun.
  2:{ unfold throw in Hrun; injection Hrun as <- <-. apply Hone. intros r Hr Hok. same_response Hup0 Hr. }
  rewrite bind_lift in Hrun.
  destruct (searchJson r0) as [batch|e].
  2:{ unfold throw in Hrun; injection Hrun as <- <-. apply Hone. intros r Hr Hok. same_response Hup0 Hr. }
  rewrite bind_lift in Hrun.
  destruct (mapResult (Tokens.toTokenData m) batch) as [recs|e].
  2:{ unfold throw in Hrun; injection Hrun as <- <-. apply Hone. intros r Hr Hok. same_response Hup0 Hr. }
  destruct (IH _ _ _ _ _ Hrun) as (new & -> & Hnew).
  exists (req :: new). split; [now rewrite <- app_assoc|].
  intros [|k] req' r Hnth Hup Hok.
  - simpl in Hnth. inversion Hnth; subst req'. rewrite Nat.add_0_r in Hup. congruence.
  - simpl in Hnth.
    destruct (Hnew k req' r Hnth) as [Hout Hlen]; auto.
    + rewrite length_app. simpl. rewrite <- Hup. f_equal. lia.
    + split; [exact Hout | simpl; now rewrite Hlen].
Qed.

(** The same for the whole aggregation, the holdings request included. *)
Lemma fetchTokens_refused up key address out log :
  Tokens.fetchTokens up address key [] = (out, log) ->
  forall k req r,
    nth_error log k = Some req ->
    up k req = Resolved r ->
    ok r = false ->
    out = Thrown (Error ((if (k =? 0)%nat
                          then "Error fetching token holdings: "
                          else "Error fetching token data: ") ++ statusText r))
    /\ length log = S k.
Proof.
  unfold Tokens.fetchTokens. rewrite bind_fetch. simpl length. simpl app.
  set (req0 := Tokens.holdingsRequest key address).
  intros Hrun.
  assert (Hone : forall out' : outcome (list TokenData),
            (forall r, up 0%nat req0 = Resolved r -> ok r = false ->
                       out' = Thrown (Error ("Error fetching token holdings: " ++ statusText r))) ->
            forall k req r,
              nth_error [req0] k = Some req -> up k req = Resolved r -> ok r = false ->
              out' = Thrown (Error ((if (k =? 0)%nat
                                    then "Error fetching token holdings: "
                                    else "Error fetching token data: ") ++ statusText r))
              /\ length [req0] = S k).
  { intros out' H [|k] req r Hnth Hup Hok.
    - simpl in Hnth. inversion Hnth; subst req. split; [eauto | reflexivity].
    - simpl in Hnth. now rewrite nth_error_nil in Hnth. }
  destruct (up 0%nat req0) as [|r0] eqn:Hup0.
  { unfold throw in Hrun; injection Hrun as <- <-. apply Hone. intros r Hr Hok. same_response Hup0 Hr. }
  destruct (ok r0) eqn:Hok0; simpl (negb _) in Hrun; cbv iota in Hrun.
  2:{ unfold throw in Hrun; injection Hrun as <- <-. apply Hone. intros r Hr Hok. same_response Hup0 Hr. }
  rewrite bind_lift in Hrun.
  destruct (holdingsJson r0) as [h|e].
  2:{ unfold throw in Hrun; injection Hrun as <- <-. apply Hone. intros r Hr Hok. same_response Hup0 Hr. }
  rewrite bind_lift in Hrun.
  destruct (BigInt (holdings_amount h)) as [native|e].
  2:{ unfold throw in Hrun; injection Hrun as <- <-. apply Hone. intros r Hr Hok. same_response Hup0 Hr. }
  rewrite bind_lift in Hrun.
  destruct (Tokens.addBalances _ _) as [m|e].
  2:{ unfold throw in Hrun; injection Hrun as <- <-. apply Hone. intros r Hr Hok. same_response Hup0 Hr. }
  destruct (searchLoop_refused _ _ _ _ _ _ _ _ _ _ Hrun) as (new & -> & Hnew).
  intros [|k] req r Hnth Hup Hok.
  - simpl in Hnth. inversion Hnth; subst req. congruence.
  - simpl in Hnth. destruct (Hnew k req r Hnth Hup Hok) as [Hout Hlen].
    split; [exact Hout | simpl; now rewrite Hlen].
Qed.

(** The iteration bound of the embedding is never reached. *)
Lemma searchLoop_finishes up key m mints : forall fuel i acc log,
  (length mints <= fuel + i)%nat ->
  fst (Tokens.searchLoop up key m mints fuel i acc log) <> Unfinished.
Proof.
  induction fuel as [|fuel IH]; intros i acc log Hfuel;
    rewrite searchLoop_unfold;
    destruct (Nat.ltb_spec i (length mints)); try (simpl; discriminate); try lia.
  rewrite bind_fetch.
  destruct (up (length log) _) as [|r0]; [simpl; discriminate|].
  destruct (ok r0); simpl (negb _); cbv iota; [|simpl; discriminate].
  rewrite bind_lift. destruct (searchJson r0); [|simpl; discriminate].
  rewrite bind_lift. destruct (mapResult _ _); [|simpl; discriminate].
  apply IH. lia.
Qed.

Lemma fetchTokens_finishes up key address :
  fst (Tokens.fetchTokens up address key []) <> Unfinished.
Proof.
  unfold Tokens.fetchTokens. rewrite bind_fetch.
  destruct (up _ _) as [|r0]; [simpl; discriminate|].
  destruct (ok r0); simpl (negb _); cbv iota; [|simpl; discriminate].
  rewrite bind_lift. destruct (holdingsJson r0); [|simpl; discriminate].
  rewrite bind_lift. destruct (BigInt _); [|simpl; discriminate].
  rewrite bind_lift. destruct (Tokens.addBalances _ _); [|simpl; discriminate].
  apply searchLoop_finishes. lia.
Qed.

(** * The handler *)

(** What the handler does once the method, the address and the credential
    have passed. *)
Lemma handler_validated isAddress up req address key :
  req_method req = Some "GET" ->
  req_address req = QueryString address ->
  truthyString address = true ->
  isAddress address = true ->
  truthyString key = true ->
  Tokens.handler isAddress (Some key) up req [] =
  match Tokens.fetchTokens up address key [] with
  | (Returned tokens, log) =>
      (Returned (send (status (setHeader (Tokens.setCorsHeaders req freshResponse)
                                 "Cache-Control" "public, max-age=60") 200)
                   (JsonTokens tokens)), log)
  | (Thrown _, log) => (Returned (errorResponse req 500 "Failed to fetch tokens"), log)
  | (Unfinished, log) => (Unfinished, log)
  end.
Proof.
  intros Hmethod Haddress Hnonempty Hvalid Hkey.
  unfold Tokens.handler. rewrite Hmethod, Haddress, Hnonempty, Hvalid, Hkey.
  simpl. unfold tryCatch, bind.
  destruct (Tokens.fetchTokens up address key []) as [[tokens|e|] log]; reflexivity.
Qed.

(** Either the handler answers without calling the provider, or it has run
    the aggregation for the validated address. *)
Lemma handler_log isAddress KEY up req out log :
  Tokens.handler isAddress KEY up req [] = (out, log) ->
  (log = [] /\ exists res, out = Returned res)
  \/ exists address key,
       req_method req = Some "GET"
       /\ req_address req = QueryString address
       /\ truthyString address = true
       /\ isAddress address = true
       /\ KEY = Some key
       /\ truthyString key = true.
Proof.
  unfold Tokens.handler.
  destruct (strictEq (req_method req) "OPTIONS") eqn:Hoptions;
    [intros H; inversion H; eauto|].
  destruct (req_method req) as [method|] eqn:Hmethod; simpl;
    [|intros H; inversion H; eauto].
  destruct (truthyString method); simpl; [|intros H; inversion H; eauto].
  destruct (String.eqb_spec method "GET") as [->|]; simpl; [|intros H; inversion H; eauto].
  destruct (req_address req) as [|address|l]; try (intros H; inversion H; now eauto).
  destruct (truthyString address) eqn:Hnonempty; simpl; [|intros H; inversion H; eauto].
  destruct (isAddress address) eqn:Hvalid; simpl; [|intros H; inversion H; eauto].
  destruct KEY as [key|]; [|intros H; inversion H; eauto].
  destruct (truthyString key) eqn:Hkey; simpl; [|intros H; inversion H; eauto].
  intros _. right. exists address, key. repeat split; auto.
Qed.

(** The handler always answers: the iteration bound of the embedding is
    never what ends a run. *)
Lemma handler_responds isAddress KEY up req :
  exists res log, Tokens.handler isAddress KEY up req [] = (Returned res, log).
Proof.
  destruct (Tokens.handler isAddress KEY up req []) as [out log] eqn:Hrun.
  destruct (handler_log _ _ _ _ _ _ Hrun)
    as [(_ & res & ->)|(address & key & Hmethod & Haddress & Hnonempty & Hvalid & -> & Hkey)];
    [eauto|].
  rewrite (handler_validated _ _ _ _ _ Hmethod Haddress Hnonempty Hvalid Hkey) in Hrun.
  pose proof (fetchTokens_finishes up key address) as Hfin.
  destruct (Tokens.fetchTokens up address key []) as [[tokens|e|] log'];
    inversion Hrun; subst; eauto.
  now elim Hfin.
Qed.

(** C4.  An upstream refusal fails the whole request.  If any request of a
    run, the holdings request or a search request, is answered with a
    non-success status, then it is the last request of the run (nothing is
    retried and no later batch is asked for), the aggregation throws the
    error carrying the status text instead of returning a list, and the
    handler answers 500 with the generic error and no token list. *)
Theorem upstream_failure_aborts isAddress KEY up req out log :
  Tokens.handler isAddress KEY up req [] = (out, log) ->
  forall k rq r,
    nth_error log k = Some rq ->
    up k rq = Resolved r ->
    ok r = false ->
    out = Returned (errorResponse req 500 "Failed to fetch tokens")
    /\ length log = S k
    /\ exists address key,
         Tokens.fetchTokens up address key [] =
         (Thrown (Error ((if (k =? 0)%nat
                          then "Error fetching token holdings: "
                          else "Error fetching token data: ") ++ statusText r)), log).
Proof.
  intros Hrun k rq r Hnth Hup Hok.
  destruct (handler_log _ _ _ _ _ _ Hrun)
    as [[-> _]|(address & key & Hmethod & Haddress & Hnonempty & Hvalid & -> & Hkey)].
  - now rewrite nth_error_nil in Hnth.
  - rewrite (handler_validated _ _ _ _ _ Hmethod Haddress Hnonempty Hvalid Hkey) in Hrun.
    destruct (Tokens.fetchTokens up address key []) as [out' log'] eqn:Hfetch.
    assert (log' = log) as -> by (destruct out'; now inversion Hrun).
    destruct (fetchTokens_refused _ _ _ _ _ Hfetch k rq r Hnth Hup Hok) as [-> Hlen].
    inversion Hrun; subst. split; [reflexivity|]. split; [exact Hlen|].
    now exists address, key.
Qed.

Lemma upstream_failure_aborts_witness :
  exists log,
    Tokens.handler (fun _ => true) (Some "KEY") refusesSecondBatch
      (getRequest (QueryString "ADDRESS")) [] =
    (Returned (errorResponse (getRequest (QueryString "ADDRESS")) 500 "Failed to fetch tokens"),
     log)
    /\ length log = 3%nat.
Proof.
  destruct (Tokens.handler (fun _ => true) (Some "KEY") refusesSecondBatch
              (getRequest (QueryString "ADDRESS")) []) as [out log] eqn:Hrun.
  assert (Hnth : nth_error log 2 =
                 Some (Tokens.searchRequest "KEY" (batchAt (ObjectKeys balances250) 1)))
    by (vm_compute in Hrun; injection Hrun as _ <-; vm_compute; reflexivity).
  destruct (upstream_failure_aborts _ _ _ _ _ _ Hrun 2%nat _
              {| ok := false; statusText := "Too Many Requests"; body := None |}
              Hnth eq_refl eq_refl) as (-> & Hlen & _).
  exists log. split; [reflexivity | exact Hlen].
Defined.

(** C7, as stated, fails: an OPTIONS request without an address is answered
    204 before the address is looked at. *)
Lemma address_validation_counterexample :
  req_address optionsRequest = QueryAbsent
  /\ Tokens.handler (fun _ => true) (Some "KEY") (servesAll holdings2 payloads2)
       optionsRequest [] =
     (Returned (send (status freshResponse 204) SendNull), [])
  /\ res_status (send (status freshResponse 204) SendNull) <> 400%nat.
Proof. split; [reflexivity|]. split; [reflexivity | discriminate]. Qed.

(** C7, amended.  For every request, the handler calls the provider not at
    all when the address is absent (or the empty string), when it is an
    array, and when it is a string that fails the address-format predicate;
    and for every GET request it then answers 400 with the matching
    message. *)
Theorem address_validation isAddress KEY up req :
  (req_address req = QueryAbsent
   \/ (exists l, req_address req = QueryArray l)
   \/ (exists address,
         req_address req = QueryString address
         /\ (address = "" \/ isAddress address = false)) ->
   snd (Tokens.handler isAddress KEY up req []) = [])
  /\ (req_method req = Some "GET" ->
      (req_address req = QueryAbsent \/ req_address req = QueryString "" ->
       Tokens.handler isAddress KEY up req [] =
       (Returned (errorResponse req 400 "Address parameter is required"), []))
      /\ (forall l,
            req_address req = QueryArray l ->
            Tokens.handler isAddress KEY up req [] =
            (Returned (errorResponse req 400 "Address parameter must be a single value"), []))
      /\ (forall address,
            req_address req = QueryString address ->
            address <> "" ->
            isAddress address = false ->
            Tokens.handler isAddress KEY up req [] =
            (Returned (errorResponse req 400 "Invalid address parameter"), []))).
Proof.
  split.
  - intros Hbad.
    destruct (Tokens.handler isAddress KEY up req []) as [out log] eqn:Hrun. simpl.
    destruct (handler_log _ _ _ _ _ _ Hrun)
      as [[-> _]|(address & key & _ & Haddress & Hnonempty & Hvalid & _)];
      [reflexivity|].
    rewrite Haddress in Hbad.
    destruct Hbad as [H|[[l H]|(a & H & Ha)]]; try discriminate.
    inversion H; subst a. destruct Ha as [->|Ha]; [discriminate | congruence].
  - intros Hmethod. unfold Tokens.handler. rewrite Hmethod. simpl.
    split; [|split].
    + intros [-> | ->]; reflexivity.
    + intros l ->. reflexivity.
    + intros address -> Hnonempty Hinvalid.
      destruct address; [contradiction|]. simpl. rewrite Hinvalid. reflexivity.
Qed.

Lemma address_validation_witness :
  let isAddress := fun s => (32 <=? String.length s)%nat in
  let up := servesAll holdings2 payloads2 in
  Tokens.handler isAddress (Some "KEY") up (getRequest QueryAbsent) [] =
  (Returned (errorResponse (getRequest QueryAbsent) 400 "Address parameter is required"), [])
  /\ Tokens.handler isAddress (Some "KEY") up (getRequest (QueryArray ["a"; "b"])) [] =
     (Returned (errorResponse (getRequest (QueryArray ["a"; "b"])) 400
                  "Address parameter must be a single value"), [])
  /\ Tokens.handler isAddress (Some "KEY") up (getRequest (QueryString "not-an-address")) [] =
     (Returned (errorResponse (getRequest (QueryString "not-an-address")) 400
                  "Invalid address parameter"), [])
  /\ snd (Tokens.handler isAddress (Some "KEY") up optionsRequest []) = [].
Proof.
  intros isAddress up. split; [|split; [|split]].
  - destruct (address_validation isAddress (Some "KEY") up (getRequest QueryAbsent))
      as (_ & H).
    destruct (H eq_refl) as (Habsent & _ & _). apply Habsent. left. reflexivity.
  - destruct (address_validation isAddress (Some "KEY") up
                (getRequest (QueryArray ["a"; "b"]))) as (_ & H).
    destruct (H eq_refl) as (_ & Harray & _). apply (Harray ["a"; "b"]). reflexivity.
  - destruct (address_validation isAddress (Some "KEY") up
                (getRequest (QueryString "not-an-address"))) as (_ & H).
    destruct (H eq_refl) as (_ & _ & Hinvalid).
    apply (Hinvalid "not-an-address"); [reflexivity | discriminate | reflexivity].
  - destruct (address_validation isAddress (Some "KEY") up optionsRequest) as (H & _).
    apply H. left. reflexivity.
Defined.

(** * The two revisions *)

Lemma reduceAmounts_agree tokens : forall sum,
  Part000.reduceAmounts tokens sum = Tokens.reduceAmounts tokens sum.
Proof.
  induction tokens as [|token tokens IH]; intros sum; simpl; [reflexivity|].
  destruct (BigInt (account_amount token)); simpl; auto.
Qed.

Lemma addBalances_agree entries : forall m,
  Part000.addBalances entries m = Tokens.addBalances entries m.
Proof.
  induction entries as [|[mint tokens] entries IH]; intros m; simpl; [reflexivity|].
  rewrite reduceAmounts_agree.
  destruct (Tokens.reduceAmounts tokens 0%Z) as [s|e]; simpl; [|reflexivity].
  destruct (s >? 0)%Z; apply IH.
Qed.

Lemma toTokenData_agree m token :
  Part000.toTokenData m token = Tokens.toTokenData m token.
Proof.
  unfold Part000.toTokenData, Tokens.toTokenData.
  destruct (token_usdPrice token) as [p|]; destruct (token_stats24h token); reflexivity.
Qed.

Lemma mapResult_ext {A B : Type} (f g : A -> result B) (l : list A) :
  (forall a, f a = g a) -> mapResult f l = mapResult g l.
Proof.
  intros H. induction l as [|a l IH]; simpl; [reflexivity|]. now rewrite H, IH.
Qed.

Lemma searchLoop_agree up key m mints : forall fuel i acc log,
  Part000.searchLoop up key m mints fuel i acc log
  = Tokens.searchLoop up key m mints fuel i acc log.
Proof.
  induction fuel as [|fuel IH]; intros i acc log;
    cbn [Part000.searchLoop Tokens.searchLoop];
    destruct (i <? length mints)%nat; [reflexivity | reflexivity | | reflexivity].
  cbv zeta. unfold Tokens.searchRequest, Part000.apiKeyHeaders.
  rewrite !bind_fetch.
  destruct (up (length log) _) as [|r]; [reflexivity|].
  destruct (ok r); simpl (negb _); cbv iota; [|reflexivity].
  rewrite !bind_lift. destruct (searchJson r) as [batch|e]; [|reflexivity].
  rewrite !bind_lift.
  rewrite (mapResult_ext _ _ batch (toTokenData_agree m)).
  destruct (mapResult (Tokens.toTokenData m) batch); [apply IH | reflexivity].
Qed.

(** C10.  The two revisions aggregate alike.  Against the same provider,
    with the same credential and address and from the same log, [fetchTokens]
    of the earlier revision and [fetchTokens] of the deployed one end the
    same way (the same records, or the same exception) after the same
    requests. *)
Theorem revisions_agree up key address log :
  Part000.fetchTokens up address key log = Tokens.fetchTokens up address key log.
Proof.
  unfold Part000.fetchTokens, Tokens.fetchTokens, Tokens.holdingsRequest,
    Part000.apiKeyHeaders.
  rewrite !bind_fetch.
  destruct (up (length log) _) as [|r]; [reflexivity|].
  destruct (ok r); simpl (negb _); cbv iota; [|reflexivity].
  rewrite !bind_lift. destruct (holdingsJson r) as [h|e]; [|reflexivity].
  rewrite !bind_lift. destruct (BigInt (holdings_amount h)) as [native|e]; [|reflexivity].
  rewrite !bind_lift. cbv zeta. rewrite addBalances_agree.
  destruct (Tokens.addBalances _ _) as [m|e]; [|reflexivity].
  apply searchLoop_agree.
Qed.

Lemma optional_fields_by_truthiness_witness :
  exists t,
    Tokens.toTokenData balances2
      {| token_id := "MINT1"; token_name := "One"; token_symbol := "ONE";
         token_decimals := 6%float; token_icon := Some "";
         token_usdPrice := Some 0%float; token_isVerified := Some false;
         token_stats24h := Some {| priceChange := Some (-0)%float |} |} = Ok t
    /\ usdPriceUnit t = None /\ usdValue t = None.
Proof.
  apply (proj1 (optional_fields_by_truthiness balances2 _) 0%float); reflexivity.
Defined.

(** * An end-to-end run

    A wallet with a native balance, one token held in two accounts and one
    token with a zero balance; the provider has metadata for the native
    asset and for the first token. *)
Example end_to_end :
  exists tokens,
    Tokens.handler (fun _ => true) (Some "KEY")
      (servesAll holdings2
         (fun _ => [metadata Tokens.SOL_MINT "Wrapped SOL" 9%float (Some 2%float);
                    metadata "MINT1" "One" 2%float None]))
      (getRequest (QueryString "ADDRESS")) [] =
    (Returned {| res_headers := [("Cache-Control", "public, max-age=60")];
                 res_status := 200;
                 res_payload := Some (JsonTokens tokens) |},
     [Tokens.holdingsRequest "KEY" "ADDRESS";
      Tokens.searchRequest "KEY" [Tokens.SOL_MINT; "MINT1"]])
    /\ map mint tokens = [Tokens.SOL_MINT; "MINT1"]
    /\ map amount tokens = [5000000000; 300]%Z
    /\ map name tokens = ["Solana"; "One"]
    /\ map usdValue tokens = [Some 10%float; None].
Proof. eexists. split; [vm_compute; reflexivity|]. repeat split. Qed.

(** * Further properties *)

(** ** Big integers written and read back *)

Lemma trimStart_plain (a : nat) (l : list nat) :
  (32 < a < 128)%nat -> trimStart (a :: l) = a :: l.
Proof.
  intros Ha. cbn [trimStart].
  assert (E13 : (a <=? 13)%nat = false) by (apply Nat.leb_gt; lia).
  assert (E32 : (a =? 32)%nat = false) by (apply Nat.eqb_neq; lia).
  assert (E194 : (a =? 194)%nat = false) by (apply Nat.eqb_neq; lia).
  assert (E225 : (a =? 225)%nat = false) by (apply Nat.eqb_neq; lia).
  assert (E226 : (a =? 226)%nat = false) by (apply Nat.eqb_neq; lia).
  assert (E227 : (a =? 227)%nat = false) by (apply Nat.eqb_neq; lia).
  assert (E239 : (a =? 239)%nat = false) by (apply Nat.eqb_neq; lia).
  rewrite E13, E32, E194, E225, E226, E227, E239, andb_false_r.
  cbn [andb orb]. destruct l as [|b [|c l]]; reflexivity.
Qed.

Lemma trimEndRev_plain (c : nat) (l : list nat) :
  (32 < c < 128)%nat -> trimEndRev (c :: l) = c :: l.
Proof.
  intros Hc. cbn [trimEndRev].
  assert (E13 : (c <=? 13)%nat = false) by (apply Nat.leb_gt; lia).
  assert (E32 : (c =? 32)%nat = false) by (apply Nat.eqb_neq; lia).
  assert (E128 : (128 <=? c)%nat = false) by (apply Nat.leb_gt; lia).
  assert (E128' : (c =? 128)%nat = false) by (apply Nat.eqb_neq; lia).
  assert (E159 : (c =? 159)%nat = false) by (apply Nat.eqb_neq; lia).
  assert (E160 : (c =? 160)%nat = false) by (apply Nat.eqb_neq; lia).
  assert (E168 : (c =? 168)%nat = false) by (apply Nat.eqb_neq; lia).
  assert (E169 : (c =? 169)%nat = false) by (apply Nat.eqb_neq; lia).
  assert (E175 : (c =? 175)%nat = false) by (apply Nat.eqb_neq; lia).
  assert (E191 : (c =? 191)%nat = false) by (apply Nat.eqb_neq; lia).
  rewrite E13, E32, E128, E128', E159, E160, E168, E169, E175, E191.
  rewrite ?andb_false_r. cbn [andb orb].
  destruct l as [|b [|a l]]; rewrite ?andb_false_r; reflexivity.
Qed.

(** A string of printable ASCII characters has nothing to trim. *)
Lemma trim_plain (s : string) :
  Forall (fun c => 32 < nat_of_ascii c < 128)%nat (list_ascii_of_string s) ->
  trim s = s.
Proof.
  intros Hs. unfold trim.
  set (bytes := map nat_of_ascii (list_ascii_of_string s)).
  assert (Hbytes : Forall (fun a => 32 < a < 128)%nat bytes)
    by (unfold bytes; now apply Forall_map).
  assert (Hstart : trimStart bytes = bytes).
  { destruct bytes as [|a l]; [reflexivity|]. inversion Hbytes; subst.
    now apply trimStart_plain. }
  rewrite Hstart.
  assert (Hend : trimEndRev (rev bytes) = rev bytes).
  { destruct (rev bytes) as [|c l] eqn:Hrev; [reflexivity|].
    apply trimEndRev_plain.
    assert (Hin : In c bytes) by (apply in_rev; rewrite Hrev; now left).
    rewrite Forall_forall in Hbytes. now apply Hbytes. }
  rewrite Hend, rev_involutive. unfold bytes. rewrite map_map.
  rewrite (map_ext _ (fun c => c)) by apply ascii_nat_embedding.
  rewrite map_id. apply string_of_list_ascii_of_string.
Qed.

Lemma string_of_uint_plain (d : Decimal.uint) :
  Forall (fun c => 32 < nat_of_ascii c < 128)%nat
    (list_ascii_of_string (NilEmpty.string_of_uint d)).
Proof.
  induction d; cbn [NilEmpty.string_of_uint list_ascii_of_string];
    [constructor | constructor; [vm_compute; lia | assumption] ..].
Qed.

Lemma parseDigits_acc (d : Decimal.uint) : forall acc : positive,
  parseDigits 10 (NilEmpty.string_of_uint d) (Z.pos acc)
  = Some (Z.pos (Pos.of_uint_acc d acc)).
Proof.
  induction d; intros acc; cbn [NilEmpty.string_of_uint parseDigits Pos.of_uint_acc];
    try reflexivity;
    change (digitValue _) with (Some 0%Z) || change (digitValue _) with (Some 1%Z)
    || change (digitValue _) with (Some 2%Z) || change (digitValue _) with (Some 3%Z)
    || change (digitValue _) with (Some 4%Z) || change (digitValue _) with (Some 5%Z)
    || change (digitValue _) with (Some 6%Z) || change (digitValue _) with (Some 7%Z)
    || change (digitValue _) with (Some 8%Z) || change (digitValue _) with (Some 9%Z);
    cbv iota beta; change (_ <? 10)%Z with true; cbv iota;
    rewrite <- IHd; f_equal; lia.
Qed.

Lemma parseDigits_uint (d : Decimal.uint) :
  parseDigits 10 (NilEmpty.string_of_uint d) 0%Z = Some (Z.of_N (Pos.of_uint d)).
Proof.
  induction d; cbn [NilEmpty.string_of_uint parseDigits Pos.of_uint];
    try reflexivity;
    change (digitValue _) with (Some 0%Z) || change (digitValue _) with (Some 1%Z)
    || change (digitValue _) with (Some 2%Z) || change (digitValue _) with (Some 3%Z)
    || change (digitValue _) with (Some 4%Z) || change (digitValue _) with (Some 5%Z)
    || change (digitValue _) with (Some 6%Z) || change (digitValue _) with (Some 7%Z)
    || change (digitValue _) with (Some 8%Z) || change (digitValue _) with (Some 9%Z);
    cbv iota beta; change (_ <? 10)%Z with true; cbv iota;
    first [exact IHd | apply parseDigits_acc].
Qed.

(** A numeral of decimal digits is read as written, with or without a
    minus sign. *)
Lemma parseIntegerLiteral_uint (d : Decimal.uint) :
  d <> Decimal.Nil ->
  parseIntegerLiteral (NilEmpty.string_of_uint d) = Some (Z.of_N (Pos.of_uint d))
  /\ parseIntegerLiteral (String "-" (NilEmpty.string_of_uint d))
     = Some (- Z.of_N (Pos.of_uint d))%Z.
Proof.
  intros Hd. split.
  - rewrite <- parseDigits_uint.
    destruct d as [|d|d|d|d|d|d|d|d|d|d]; try contradiction; destruct d; reflexivity.
  - transitivity (option_map Z.opp (parseDigits 10 (NilEmpty.string_of_uint d) 0%Z)).
    + destruct d as [|d|d|d|d|d|d|d|d|d|d]; try contradiction; reflexivity.
    + rewrite parseDigits_uint. reflexivity.
Qed.

(** X9.  A bigint written by [toJSON] is read back by [BigInt] as the same
    bigint: the amounts the endpoint serialises are the amounts it computed,
    whatever their size or sign. *)
Theorem toJSON_roundtrip (z : bigint) : BigInt (toJSON z) = Ok z.
Proof.
  unfold toJSON, bigintToString.
  destruct z as [|p|p]; [reflexivity | |];
    pose proof (DecimalPos.Unsigned.to_uint_nonnil p) as Hnil;
    pose proof (DecimalPos.Unsigned.of_to p) as Hvalue;
    destruct (parseIntegerLiteral_uint (Pos.to_uint p) Hnil) as [Hpos Hneg];
    cbn [Z.to_int NilZero.string_of_int]; unfold NilZero.string_of_uint;
    destruct (Pos.to_uint p) as [|d|d|d|d|d|d|d|d|d|d] eqn:Hd; try contradiction;
    unfold BigInt;
    (rewrite trim_plain;
     [| try (constructor; [vm_compute; lia|]); apply string_of_uint_plain]);
    cbn [NilEmpty.string_of_uint] in *;
    rewrite ?Hpos, ?Hneg, Hvalue; reflexivity.
Qed.

(** ** Cross-origin requests *)

Lemma stripPrefix_Some (p s r : string) :
  Tokens.stripPrefix p s = Some r <-> s = (p ++ r)%string.
Proof.
  revert s. induction p as [|a p IH]; intros s; simpl.
  - split; [intros H; now inversion H | now intros ->].
  - destruct s as [|b s]; [split; discriminate|].
    destruct (Ascii.eqb_spec a b) as [->|Hne].
    + rewrite IH. split; [now intros -> | intros H; now inversion H].
    + split; [discriminate | intros H; inversion H; congruence].
Qed.

Lemma allDigits_spec (s : string) :
  Tokens.allDigits s = true <->
  forall c, In c (list_ascii_of_string s) -> (48 <= nat_of_ascii c <= 57)%nat.
Proof.
  induction s as [|a s IH]; cbn [Tokens.allDigits list_ascii_of_string In].
  - split; [intros _ c [] | reflexivity].
  - rewrite !andb_true_iff, !Nat.leb_le, IH. split.
    + intros [Ha Hs] c [<-|Hc]; [exact Ha | now apply Hs].
    + intros H. split; [apply H; now left | intros c Hc; apply H; now right].
Qed.

(** X1.  Which origins are allowed.  [isAllowedOrigin] returns the origin
    it was given, and only when that origin is [http://localhost] or
    [http://localhost:] followed by one or more decimal digits; for any other
    origin, an empty one or none, it returns [null]. *)
Theorem allowed_origins (origin : option string) (o : string) :
  Tokens.isAllowedOrigin origin = Some o <->
  origin = Some o
  /\ (o = "http://localhost"
      \/ exists port,
           port <> ""
           /\ (forall c, In c (list_ascii_of_string port) ->
                 (48 <= nat_of_ascii c <= 57)%nat)
           /\ o = ("http://localhost:" ++ port)%string).
Proof.
  unfold Tokens.isAllowedOrigin.
  destruct origin as [s|]; [|split; [discriminate | intros [H _]; discriminate]].
  assert (Hlocal : Tokens.localhostOrigin s = true <->
                   s = "http://localhost"
                   \/ exists port,
                        port <> ""
                        /\ (forall c, In c (list_ascii_of_string port) ->
                              (48 <= nat_of_ascii c <= 57)%nat)
                        /\ s = ("http://localhost:" ++ port)%string).
  { unfold Tokens.localhostOrigin. split.
    - destruct (Tokens.stripPrefix "http://localhost" s) as [[|c ds]|] eqn:Hstrip;
        [| |discriminate]; apply stripPrefix_Some in Hstrip.
      + intros _. left. exact Hstrip.
      + rewrite !andb_true_iff. intros [[Hcolon Hnonempty] Hdigits]. right.
        exists ds. split; [destruct ds; [discriminate | discriminate]|].
        split; [now apply allDigits_spec|].
        unfold isChar in Hcolon. apply Nat.eqb_eq in Hcolon.
        rewrite <- (ascii_nat_embedding c), Hcolon in Hstrip. exact Hstrip.
    - intros [->|(port & Hnonempty & Hdigits & ->)]; [reflexivity|].
      cbn. destruct port as [|a port]; [contradiction|].
      apply allDigits_spec in Hdigits. cbn [truthyString]. now rewrite Hdigits. }
  cbn [notString]. unfold Tokens.ALLOWED_ORIGINS. cbn [existsb].
  destruct (truthyString s) eqn:Hs; cbn [negb].
  - destruct (Tokens.localhostOrigin s) eqn:E.
    + split.
      * intros H. inversion H; subst o. split; [reflexivity|]. now apply Hlocal.
      * intros [H _]. exact H.
    + split; [discriminate|]. intros [H Ho]. inversion H; subst o.
      apply Hlocal in Ho. congruence.
  - destruct s; [|discriminate]. split; [discriminate|].
    intros [H Ho]. inversion H; subst o. apply Hlocal in Ho. discriminate.
Qed.

(** ** Every answer of the handler *)

(** The six ways a request is answered. *)
Lemma handler_answers isAddress KEY up req out log :
  Tokens.handler isAddress KEY up req [] = (out, log) ->
  let cors := Tokens.setCorsHeaders req freshResponse in
  exists res,
    out = Returned res
    /\ ((req_method req = Some "OPTIONS"
         /\ res = send (status cors 204) SendNull /\ log = [])
        \/ (req_method req <> Some "OPTIONS" /\ req_method req <> Some "GET"
            /\ res = send (status cors 405) SendNull /\ log = [])
        \/ (req_method req = Some "GET"
            /\ (exists message,
                  In message ["Address parameter is required";
                              "Address parameter must be a single value";
                              "Invalid address parameter"]
                  /\ res = send (status cors 400) (JsonError message))
            /\ log = [])
        \/ (req_method req = Some "GET"
            /\ (KEY = None \/ KEY = Some "")
            /\ res = send (status cors 500) (JsonError "JUPITER_API_KEY is not configured")
            /\ log = [])
        \/ (req_method req = Some "GET"
            /\ exists address key e,
                 req_address req = QueryString address /\ KEY = Some key
                 /\ Tokens.fetchTokens up address key [] = (Thrown e, log)
                 /\ res = send (status cors 500) (JsonError "Failed to fetch tokens"))
        \/ (req_method req = Some "GET"
            /\ exists address key tokens,
                 req_address req = QueryString address /\ KEY = Some key
                 /\ Tokens.fetchTokens up address key [] = (Returned tokens, log)
                 /\ res = send (status (setHeader cors "Cache-Control" "public, max-age=60")
                                  200) (JsonTokens tokens))).
Proof.
  intros Hrun cors. unfold Tokens.handler in Hrun. fold cors in Hrun.
  destruct (req_method req) as [method|] eqn:Hmethod; cbn [strictEq notString] in Hrun.
  2:{ cbn in Hrun. injection Hrun as <- <-. eexists. split; [reflexivity|].
      right. left. repeat split; discriminate. }
  destruct (String.eqb_spec method "OPTIONS") as [->|Hoptions].
  { injection Hrun as <- <-. eexists. split; [reflexivity|]. left. auto. }
  destruct (String.eqb_spec method "GET") as [->|Hget].
  2:{ rewrite orb_true_r in Hrun. injection Hrun as <- <-.
      eexists. split; [reflexivity|]. right. left. repeat split; congruence. }
  cbn [truthyString negb orb] in Hrun.
  destruct (req_address req) as [|address|l] eqn:Haddress.
  { injection Hrun as <- <-. eexists. split; [reflexivity|]. right. right. left.
    repeat split. eexists. split; [|reflexivity]. simpl. auto. }
  2:{ injection Hrun as <- <-. eexists. split; [reflexivity|]. right. right. left.
      repeat split. eexists. split; [|reflexivity]. simpl. auto. }
  destruct (truthyString address); cbn [negb] in Hrun.
  2:{ injection Hrun as <- <-. eexists. split; [reflexivity|]. right. right. left.
      repeat split. eexists. split; [|reflexivity]. simpl. auto. }
  destruct (isAddress address); cbn [negb] in Hrun.
  2:{ injection Hrun as <- <-. eexists. split; [reflexivity|]. right. right. left.
      repeat split. eexists. split; [|reflexivity]. simpl. auto. }
  destruct KEY as [key|].
  2:{ injection Hrun as <- <-. eexists. split; [reflexivity|]. do 3 right. left. auto. }
  destruct key as [|c key]; cbn [truthyString negb] in Hrun.
  { injection Hrun as <- <-. eexists. split; [reflexivity|]. do 3 right. left. auto. }
  unfold tryCatch, bind in Hrun.
  pose proof (fetchTokens_finishes up (String c key) address) as Hfinishes.
  destruct (Tokens.fetchTokens up address (String c key) []) as [[tokens|e|] log'] eqn:Hfetch.
  - injection Hrun as <- <-. eexists. split; [reflexivity|]. do 5 right.
    split; [reflexivity|]. exists address, (String c key), tokens. auto.
  - injection Hrun as <- <-. eexists. split; [reflexivity|]. do 4 right. left.
    split; [reflexivity|]. exists address, (String c key), e. auto.
  - now elim Hfinishes.
Qed.

(** X4.  Only GET requests are served.  A request whose method is not GET
    never reaches the provider and is answered with an empty body: 204 when
    the method is OPTIONS, 405 otherwise (a request without a method
    included), whatever its address. *)
Theorem only_get_is_served isAddress KEY up req out log :
  Tokens.handler isAddress KEY up req [] = (out, log) ->
  req_method req <> Some "GET" ->
  log = []
  /\ out = Returned (send (status (Tokens.setCorsHeaders req freshResponse)
                             (if strictEq (req_method req) "OPTIONS" then 204 else 405))
                       SendNull).
Proof.
  intros Hrun Hmethod.
  destruct (handler_answers _ _ _ _ _ _ Hrun)
    as (res & -> & [(Hm & -> & ->)|[(Ho & _ & -> & ->)|[H|[H|[H|H]]]]]);
    try (destruct H as [H _]; contradiction).
  - rewrite Hm. auto.
  - split; [reflexivity|].
    destruct (req_method req) as [method|]; [|reflexivity]. cbn [strictEq].
    destruct (String.eqb_spec method "OPTIONS"); [congruence | reflexivity].
Qed.

Lemma only_get_is_served_witness :
  Tokens.handler (fun _ => true) (Some "KEY") (servesAll holdings2 payloads2) postRequest [] =
  (Returned (send (status (Tokens.setCorsHeaders postRequest freshResponse) 405) SendNull), []).
Proof.
  destruct (Tokens.handler (fun _ => true) (Some "KEY") (servesAll holdings2 payloads2)
              postRequest []) as [out log] eqn:Hrun.
  destruct (only_get_is_served _ _ _ _ _ _ Hrun) as [-> ->]; [discriminate | reflexivity].
Defined.

(** X5.  Without a credential nothing is fetched.  When [JUPITER_API_KEY]
    is unset or empty the handler never calls the provider, and a GET request
    with a valid address is answered 500 with the configuration message. *)
Theorem missing_credential isAddress KEY up req :
  KEY = None \/ KEY = Some "" ->
  snd (Tokens.handler isAddress KEY up req []) = []
  /\ (forall address,
        req_method req = Some "GET" ->
        req_address req = QueryString address ->
        address <> "" ->
        isAddress address = true ->
        Tokens.handler isAddress KEY up req [] =
        (Returned (errorResponse req 500 "JUPITER_API_KEY is not configured"), [])).
Proof.
  intros HKEY. split.
  - destruct (Tokens.handler isAddress KEY up req []) as [out log] eqn:Hrun. simpl.
    destruct (handler_answers _ _ _ _ _ _ Hrun)
      as (res & _ & [(_ & _ & ->)|[(_ & _ & _ & ->)|[(_ & _ & ->)|[(_ & _ & _ & ->)|[H|H]]]]]);
      try reflexivity;
      destruct H as (_ & address & key & x & _ & -> & Hfetch & _);
      destruct HKEY as [HKEY|HKEY]; try discriminate; inversion HKEY; subst key.
    + pose proof (handler_log _ _ _ _ _ _ Hrun) as [[-> _]|(a & k & _ & _ & _ & _ & Hk & Hne)];
        [reflexivity|]. inversion Hk; subst k. discriminate.
    + pose proof (handler_log _ _ _ _ _ _ Hrun) as [[-> _]|(a & k & _ & _ & _ & _ & Hk & Hne)];
        [reflexivity|]. inversion Hk; subst k. discriminate.
  - intros address Hmethod Haddress Hnonempty Hvalid.
    unfold Tokens.handler. rewrite Hmethod, Haddress, Hvalid.
    destruct address; [contradiction|].
    destruct HKEY as [-> | ->]; reflexivity.
Qed.

Lemma missing_credential_witness :
  Tokens.handler (fun _ => true) None (servesAll holdings2 payloads2)
    (getRequest (QueryString "ADDRESS")) [] =
  (Returned (errorResponse (getRequest (QueryString "ADDRESS")) 500
               "JUPITER_API_KEY is not configured"), []).
Proof.
  apply (proj2 (missing_credential (fun _ => true) None (servesAll holdings2 payloads2)
                  (getRequest (QueryString "ADDRESS")) (or_introl eq_refl)) "ADDRESS");
    [reflexivity | reflexivity | discriminate | reflexivity].
Defined.

(** X6.  What a response can carry.  The handler always answers, with
    status 200, 204, 400, 405 or 500.  The status is 200 exactly when the
    body is a token list, and that list is then the one [fetchTokens]
    returned for the requested address; an error body carries one of five
    fixed messages, so neither an exception nor the provider's status text
    reaches the caller. *)
Theorem response_shapes isAddress KEY up req :
  exists res log,
    Tokens.handler isAddress KEY up req [] = (Returned res, log)
    /\ In (res_status res) [200; 204; 400; 405; 500]%nat
    /\ (res_status res = 200%nat <-> exists tokens, res_payload res = Some (JsonTokens tokens))
    /\ (forall tokens,
          res_payload res = Some (JsonTokens tokens) ->
          exists address key,
            req_address req = QueryString address /\ KEY = Some key
            /\ Tokens.fetchTokens up address key [] = (Returned tokens, log))
    /\ (forall message,
          res_payload res = Some (JsonError message) ->
          In message ["Address parameter is required";
                      "Address parameter must be a single value";
                      "Invalid address parameter";
                      "JUPITER_API_KEY is not configured";
                      "Failed to fetch tokens"]).
Proof.
  destruct (Tokens.handler isAddress KEY up req []) as [out log] eqn:Hrun.
  destruct (handler_answers _ _ _ _ _ _ Hrun) as (res & -> & Hcases).
  exists res, log. split; [reflexivity|].
  destruct Hcases
    as [(_ & Hres & _)|[(_ & _ & Hres & _)|[(_ & (message & Hin & Hres) & _)
       |[(_ & _ & Hres & _)|[(_ & a & k & e & _ & _ & _ & Hres)
       |(_ & a & k & tokens & Ha & Hk & Hfetch & Hres)]]]]];
    rewrite Hres; cbn [res_status res_payload send status];
    (split; [simpl; tauto|]);
    (split; [split; [discriminate || eauto | intros [t Ht]; discriminate || reflexivity]|]);
    (split; [intros t Ht; try discriminate|intros msg Hmsg; try discriminate]).
  - inversion Hmsg; subst msg. simpl in Hin. simpl. tauto.
  - inversion Hmsg; subst msg. simpl. tauto.
  - inversion Hmsg; subst msg. simpl. tauto.
  - inversion Ht; subst t. eauto.
Qed.

(** X2.  The headers of every response.  Whatever the answer (preflight,
    refusal, error or token list), the response carries the three
    cross-origin headers, with the request's own origin as the allowed one,
    exactly when [isAllowedOrigin] accepts that origin; [Cache-Control] is
    added exactly on a 200; and there is no other header. *)
Theorem response_headers isAddress KEY up req res log :
  Tokens.handler isAddress KEY up req [] = (Returned res, log) ->
  res_headers res =
  (match Tokens.isAllowedOrigin (req_origin req) with
   | Some origin => [("Access-Control-Allow-Origin", origin);
                     ("Access-Control-Allow-Methods", "GET, OPTIONS");
                     ("Access-Control-Allow-Headers", "Content-Type")]
   | None => []
   end)
  ++ (if (res_status res =? 200)%nat then [("Cache-Control", "public, max-age=60")] else []).
Proof.
  intros Hrun.
  destruct (handler_answers _ _ _ _ _ _ Hrun) as (res' & Hres' & Hcases).
  inversion Hres'; subst res'. clear Hres'.
  assert (Hcors : res_headers (Tokens.setCorsHeaders req freshResponse) =
                  match Tokens.isAllowedOrigin (req_origin req) with
                  | Some origin => [("Access-Control-Allow-Origin", origin);
                                    ("Access-Control-Allow-Methods", "GET, OPTIONS");
                                    ("Access-Control-Allow-Headers", "Content-Type")]
                  | None => []
                  end).
  { unfold Tokens.setCorsHeaders.
    destruct (Tokens.isAllowedOrigin (req_origin req)); reflexivity. }
  destruct Hcases
    as [(_ & Hres & _)|[(_ & _ & Hres & _)|[(_ & (message & Hin & Hres) & _)
       |[(_ & _ & Hres & _)|[(_ & a & k & e & _ & _ & _ & Hres)
       |(_ & a & k & tokens & Ha & Hk & Hfetch & Hres)]]]]];
    rewrite Hres; cbn [res_status res_headers send status Nat.eqb];
    try (now rewrite app_nil_r).
  unfold setHeader. cbn [res_headers]. rewrite Hcors.
  destruct (Tokens.isAllowedOrigin (req_origin req)); reflexivity.
Qed.

Lemma response_headers_witness :
  res_headers (send (status (Tokens.setCorsHeaders postRequest freshResponse) 405) SendNull) =
  [("Access-Control-Allow-Origin", "http://localhost:3000");
   ("Access-Control-Allow-Methods", "GET, OPTIONS");
   ("Access-Control-Allow-Headers", "Content-Type")].
Proof.
  exact (response_headers (fun _ => true) (Some "KEY") (servesAll holdings2 payloads2)
           postRequest
           (send (status (Tokens.setCorsHeaders postRequest freshResponse) 405) SendNull)
           [] eq_refl).
Defined.

(** X3.  The origin changes the headers only.  Two requests that differ in
    their [Origin] header alone are answered with the same status and the same
    body, after the same calls to the provider. *)
Theorem origin_changes_headers_only isAddress KEY up req origin res log :
  Tokens.handler isAddress KEY up req [] = (Returned res, log) ->
  exists res',
    Tokens.handler isAddress KEY up (fromOrigin origin req) [] = (Returned res', log)
    /\ res_status res' = res_status res
    /\ res_payload res' = res_payload res.
Proof.
  unfold Tokens.handler. cbn [fromOrigin req_method req_address].
  set (cors := Tokens.setCorsHeaders req freshResponse).
  set (cors' := Tokens.setCorsHeaders (fromOrigin origin req) freshResponse).
  destruct (strictEq (req_method req) "OPTIONS");
    [intros H; inversion H; eexists; split; [reflexivity|split; reflexivity]|].
  destruct (notString (req_method req) || negb (strictEq (req_method req) "GET"));
    [intros H; inversion H; eexists; split; [reflexivity|split; reflexivity]|].
  destruct (req_address req) as [|address|l];
    try (intros H; inversion H; eexists; split; [reflexivity|split; reflexivity]).
  destruct (negb (truthyString address));
    [intros H; inversion H; eexists; split; [reflexivity|split; reflexivity]|].
  destruct (negb (isAddress address));
    [intros H; inversion H; eexists; split; [reflexivity|split; reflexivity]|].
  destruct KEY as [key|];
    [|intros H; inversion H; eexists; split; [reflexivity|split; reflexivity]].
  destruct (negb (truthyString key));
    [intros H; inversion H; eexists; split; [reflexivity|split; reflexivity]|].
  unfold tryCatch, bind.
  destruct (Tokens.fetchTokens up address key []) as [[tokens|e|] log'];
    intros H; inversion H; eexists; split; [reflexivity|split; reflexivity| |].
  - reflexivity.
  - split; reflexivity.
Qed.

Lemma origin_changes_headers_only_witness :
  exists res',
    Tokens.handler (fun _ => true) (Some "KEY") (servesAll holdings2 payloads2)
      (fromOrigin (Some "https://example.org") postRequest) [] = (Returned res', [])
    /\ res_status res' = 405%nat
    /\ res_payload res' = Some SendNull.
Proof.
  apply (origin_changes_headers_only (fun _ => true) (Some "KEY")
           (servesAll holdings2 payloads2) postRequest (Some "https://example.org")
           (send (status (Tokens.setCorsHeaders postRequest freshResponse) 405) SendNull) []).
  reflexivity.
Defined.

(** ** The requests of a run, whatever the provider does *)

(** The loop entered at its [j]-th iteration asks for consecutive batches
    from the [j]-th on, for at least one if any is left, and for nothing
    else. *)
Lemma searchLoop_requests up key m mints : forall fuel j acc log out log',
  (length mints <= fuel + 100 * j)%nat ->
  Tokens.searchLoop up key m mints fuel (100 * j) acc log = (out, log') ->
  exists k,
    (k <= batchCount (length mints) - j)%nat
    /\ ((j < batchCount (length mints))%nat -> (1 <= k)%nat)
    /\ log' = log ++ map (fun i => Tokens.searchRequest key (batchAt mints i)) (seq j k).
Proof.
  induction fuel as [|fuel IH]; intros j acc log out log' Hfuel Hrun;
    rewrite searchLoop_unfold in Hrun;
    destruct (Nat.ltb_spec (100 * j) (length mints)) as [Hlt|Hge]; try (exfalso; lia);
    try (unfold ret in Hrun; injection Hrun as <- <-; exists 0%nat;
         pose proof (batchCount_lt j (length mints));
         split; [lia|]; split; [lia|]; simpl; now rewrite app_nil_r).
  assert (Hj : (j < batchCount (length mints))%nat) by (now apply batchCount_lt).
  assert (Hone : log ++ [Tokens.searchRequest key (slice (100 * j) (100 * j + 100) mints)]
                 = log ++ map (fun i => Tokens.searchRequest key (batchAt mints i)) (seq j 1))
    by reflexivity.
  set (request := Tokens.searchRequest key (slice (100 * j) (100 * j + 100) mints)) in *.
  rewrite bind_fetch in Hrun.
  destruct (up (length log) _) as [|r].
  { injection Hrun as <- <-. exists 1%nat. split; [lia|]. split; [lia|]. exact Hone. }
  destruct (ok r); simpl (negb _) in Hrun; cbv iota in Hrun.
  2:{ unfold throw in Hrun. injection Hrun as <- <-.
      exists 1%nat. split; [lia|]. split; [lia|]. exact Hone. }
  rewrite bind_lift in Hrun. destruct (searchJson r) as [batch|e].
  2:{ injection Hrun as <- <-. exists 1%nat. split; [lia|]. split; [lia|]. exact Hone. }
  rewrite bind_lift in Hrun.
  destruct (mapResult (Tokens.toTokenData m) batch) as [recs|e].
  2:{ injection Hrun as <- <-. exists 1%nat. split; [lia|]. split; [lia|]. exact Hone. }
  replace (100 * j + 100)%nat with (100 * S j)%nat in Hrun by lia.
  destruct (IH (S j) _ _ _ _ ltac:(lia) Hrun) as (k & Hk & _ & ->).
  exists (S k). split; [lia|]. split; [lia|].
  rewrite <- app_assoc. reflexivity.
Qed.

(** The loop over the entries only adds identifiers, after those it found. *)
Lemma addBalances_keeps_keys entries : forall m0 m,
  Tokens.addBalances entries m0 = Ok m ->
  exists added, ObjectKeys m = ObjectKeys m0 ++ added.
Proof.
  induction entries as [|[mint tokens] entries IH]; intros m0 m Hadd; simpl in Hadd.
  - inversion Hadd; subst. exists []. now rewrite app_nil_r.
  - destruct (Tokens.reduceAmounts tokens 0%Z) as [s|e]; [|discriminate].
    simpl in Hadd. destruct (s >? 0)%Z; [|eauto].
    destruct (IH _ _ Hadd) as [added ->]. rewrite keys_setProp.
    destruct (hasKey m0 mint); [eauto|]. rewrite <- app_assoc. eauto.
Qed.

Lemma collectBalances_native_first h m :
  collectBalances h = Ok m ->
  exists others, ObjectKeys m = Tokens.SOL_MINT :: others.
Proof.
  unfold collectBalances. intros Hm.
  destruct (BigInt (holdings_amount h)) as [native|e]; [|discriminate].
  unfold rbind in Hm. destruct (addBalances_keeps_keys _ _ _ Hm) as [added ->].
  now exists added.
Qed.

Lemma firstn_batches (mints : list Address) (k : nat) :
  (k <= batchCount (length mints))%nat ->
  firstn k (batches mints) = map (batchAt mints) (seq 0 k).
Proof.
  intros Hk. unfold batches. rewrite firstn_map. f_equal.
  generalize 0%nat as start. revert Hk. generalize (batchCount (length mints)) as n.
  induction k as [|k IH]; intros n Hk start; [reflexivity|].
  destruct n as [|n]; [lia|]. cbn [seq firstn]. f_equal. apply IH. lia.
Qed.

(** X7.  The requests of any run.  Whatever the provider answers,
    [fetchTokens] first asks for the holdings of the address; it asks for
    nothing else unless that call succeeded and the balances were collected,
    and then it asks for the batches of the identifier list in order, for
    the first one at least and for no batch twice.  Every request goes to
    [https://api.jup.ag/ultra/v1/] and carries the credential as its only
    header. *)
Theorem requests_made up address key out log :
  Tokens.fetchTokens up address key [] = (out, log) ->
  exists searches,
    log = Tokens.holdingsRequest key address :: searches
    /\ (searches = []
        \/ exists h m k,
             answers up 0 (Tokens.holdingsRequest key address) (JsonHoldings h)
             /\ collectBalances h = Ok m
             /\ (1 <= k <= batchCount (length (ObjectKeys m)))%nat
             /\ searches = map (Tokens.searchRequest key) (firstn k (batches (ObjectKeys m))))
    /\ Forall (fun request =>
                 headers request = [("x-api-key", key)]
                 /\ String.prefix "https://api.jup.ag/ultra/v1/" (url request) = true)
         log.
Proof.
  intros Hrun.
  assert (Hshape : exists searches,
            log = Tokens.holdingsRequest key address :: searches
            /\ (searches = []
                \/ exists h m k,
                     answers up 0 (Tokens.holdingsRequest key address) (JsonHoldings h)
                     /\ collectBalances h = Ok m
                     /\ (1 <= k <= batchCount (length (ObjectKeys m)))%nat
                     /\ searches
                        = map (Tokens.searchRequest key) (firstn k (batches (ObjectKeys m))))).
  { assert (Hfetch := Hrun). unfold Tokens.fetchTokens in Hfetch.
    rewrite bind_fetch in Hfetch. simpl length in Hfetch. simpl app in Hfetch.
    destruct (up 0%nat (Tokens.holdingsRequest key address)) as [|r] eqn:Hup.
    { injection Hfetch as _ <-. eauto. }
    destruct (ok r) eqn:Hok; simpl (negb _) in Hfetch; cbv iota in Hfetch.
    2:{ unfold throw in Hfetch. injection Hfetch as _ <-. eauto. }
    rewrite bind_lift in Hfetch.
    destruct (holdingsJson r) as [h|e] eqn:Hjson.
    2:{ injection Hfetch as _ <-. eauto. }
    assert (Hbody : body r = Some (JsonHoldings h)).
    { unfold holdingsJson in Hjson. destruct (body r) as [[h'|l]|]; congruence. }
    assert (Hserved : answers up 0 (Tokens.holdingsRequest key address) (JsonHoldings h))
      by (exists r; auto).
    rewrite (fetchTokens_collects up address key h Hserved) in Hrun.
    destruct (collectBalances h) as [m|e] eqn:Hm.
    2:{ injection Hrun as _ <-. eauto. }
    assert (Hloop : exists k,
              (k <= batchCount (length (ObjectKeys m)) - 0)%nat
              /\ ((0 < batchCount (length (ObjectKeys m)))%nat -> (1 <= k)%nat)
              /\ log = [Tokens.holdingsRequest key address]
                       ++ map (fun i => Tokens.searchRequest key (batchAt (ObjectKeys m) i))
                            (seq 0 k))
      by (eapply (searchLoop_requests up key m (ObjectKeys m)
                    (length (ObjectKeys m)) 0%nat); [lia | exact Hrun]).
    destruct Hloop as (k & Hk & Hfirst & ->).
    eexists. split; [reflexivity|]. right. exists h, m, k.
    assert (Hpos : (0 < batchCount (length (ObjectKeys m)))%nat).
    { apply batchCount_lt. destruct (collectBalances_native_first h m Hm) as [others ->].
      simpl. lia. }
    split; [exact Hserved|]. split; [exact Hm|]. split; [lia|].
    rewrite firstn_batches by lia. now rewrite map_map. }
  destruct Hshape as (searches & -> & Hsearches).
  exists searches. split; [reflexivity|]. split; [exact Hsearches|].
  constructor; [split; reflexivity|].
  destruct Hsearches as [->|(h & m & k & _ & _ & _ & ->)]; [constructor|].
  apply Forall_map. apply Forall_forall. intros batch _. split; reflexivity.
Qed.

Lemma requests_made_witness :
  Forall (fun request =>
            headers request = [("x-api-key", "KEY")]
            /\ String.prefix "https://api.jup.ag/ultra/v1/" (url request) = true)
    (snd (Tokens.fetchTokens refusesSecondBatch "ADDRESS" "KEY" [])).
Proof.
  destruct (Tokens.fetchTokens refusesSecondBatch "ADDRESS" "KEY" []) as [out log] eqn:Hrun.
  destruct (requests_made _ _ _ _ _ Hrun) as (searches & _ & _ & Hall). exact Hall.
Defined.

(** X8.  The native asset is always asked about.  Once the holdings call
    has succeeded and the balances are collected, a search request follows,
    and the first one starts with the native mint, whatever the wallet holds
    (nothing at all, or a zero native balance, included). *)
Theorem native_always_searched up address key h m :
  answers up 0 (Tokens.holdingsRequest key address) (JsonHoldings h) ->
  collectBalances h = Ok m ->
  exists out others later,
    Tokens.fetchTokens up address key [] =
    (out,
     Tokens.holdingsRequest key address
     :: Tokens.searchRequest key (Tokens.SOL_MINT :: others) :: later)
    /\ Tokens.SOL_MINT :: others = firstn 100 (ObjectKeys m).
Proof.
  intros Hserved Hm.
  destruct (Tokens.fetchTokens up address key []) as [out log] eqn:Hrun.
  destruct (collectBalances_native_first h m Hm) as [others Hkeys].
  assert (Hbatch : batchAt (ObjectKeys m) 0 = Tokens.SOL_MINT :: firstn 99 others)
    by (rewrite Hkeys; reflexivity).
  assert (Hloop : exists k,
            (k <= batchCount (length (ObjectKeys m)) - 0)%nat
            /\ ((0 < batchCount (length (ObjectKeys m)))%nat -> (1 <= k)%nat)
            /\ log = [Tokens.holdingsRequest key address]
                     ++ map (fun i => Tokens.searchRequest key (batchAt (ObjectKeys m) i))
                          (seq 0 k)).
  { rewrite (fetchTokens_collects up address key h Hserved), Hm in Hrun.
    eapply (searchLoop_requests up key m (ObjectKeys m) (length (ObjectKeys m)) 0%nat);
      [lia | exact Hrun]. }
  destruct Hloop as (k & _ & Hfirst & ->).
  assert (Hk : (1 <= k)%nat).
  { apply Hfirst. apply batchCount_lt. rewrite Hkeys. simpl. lia. }
  destruct k as [|k]; [lia|]. cbn [seq map app]. rewrite Hbatch.
  exists out, (firstn 99 others). eexists. split; [reflexivity|].
  rewrite Hkeys. reflexivity.
Qed.

Lemma native_always_searched_witness :
  exists out later,
    Tokens.fetchTokens (servesAll emptyHoldings (fun _ => [])) "ADDRESS" "KEY" [] =
    (out,
     Tokens.holdingsRequest "KEY" "ADDRESS"
     :: Tokens.searchRequest "KEY" [Tokens.SOL_MINT] :: later).
Proof.
  destruct (native_always_searched (servesAll emptyHoldings (fun _ => [])) "ADDRESS" "KEY"
              emptyHoldings [(Tokens.SOL_MINT, 0%Z)])
    as (out & others & later & Hrun & Hothers).
  - eexists. repeat split.
  - reflexivity.
  - inversion Hothers; subst others. eauto.
Defined.

(** X13.  An empty wallet.  When the holdings payload lists no token, the
    run makes exactly two requests, whatever the provider answers to the
    second: the holdings request, and one search whose query is the native
    mint alone. *)
Theorem empty_wallet up address key h native :
  answers up 0 (Tokens.holdingsRequest key address) (JsonHoldings h) ->
  BigInt (holdings_amount h) = Ok native ->
  holdings_tokens h = [] ->
  collectBalances h = Ok [(Tokens.SOL_MINT, native)]
  /\ snd (Tokens.fetchTokens up address key []) =
     [Tokens.holdingsRequest key address;
      {| url := "https://api.jup.ag/ultra/v1/search?query=So11111111111111111111111111111111111111112";
         headers := [("x-api-key", key)] |}].
Proof.
  intros Hserved Hnative Hempty.
  assert (Hm : collectBalances h = Ok [(Tokens.SOL_MINT, native)])
    by (unfold collectBalances; rewrite Hnative, Hempty; reflexivity).
  split; [exact Hm|].
  destruct (Tokens.fetchTokens up address key []) as [out log] eqn:Hrun. simpl.
  rewrite (fetchTokens_collects up address key h Hserved), Hm in Hrun.
  assert (Hloop : exists k,
            (k <= batchCount 1 - 0)%nat
            /\ ((0 < batchCount 1)%nat -> (1 <= k)%nat)
            /\ log = [Tokens.holdingsRequest key address]
                     ++ map (fun i => Tokens.searchRequest key (batchAt [Tokens.SOL_MINT] i))
                          (seq 0 k))
    by (eapply (searchLoop_requests up key _ [Tokens.SOL_MINT] 1%nat 0%nat);
        [simpl; lia | exact Hrun]).
  destruct Hloop as (k & Hk & Hfirst & ->).
  change (batchCount 1) with 1%nat in *.
  assert (k = 1%nat) as -> by lia. reflexivity.
Qed.

Lemma empty_wallet_witness :
  snd (Tokens.fetchTokens unreachable "ADDRESS" "KEY" []) = [Tokens.holdingsRequest "KEY" "ADDRESS"]
  /\ snd (Tokens.fetchTokens (servesAll emptyHoldings (fun _ => [])) "ADDRESS" "KEY" []) =
     [Tokens.holdingsRequest "KEY" "ADDRESS";
      {| url := "https://api.jup.ag/ultra/v1/search?query=So11111111111111111111111111111111111111112";
         headers := [("x-api-key", "KEY")] |}].
Proof.
  split; [reflexivity|].
  apply (empty_wallet (servesAll emptyHoldings (fun _ => [])) "ADDRESS" "KEY"
           emptyHoldings 0%Z); [eexists; repeat split | reflexivity | reflexivity].
Defined.

(** ** Amounts that are not integers *)

Lemma BigInt_error (s : string) (e : JsError) : BigInt s = Err e -> e = SyntaxError.
Proof.
  unfold BigInt. destruct (trim s); [discriminate|].
  destruct (parseIntegerLiteral _); [discriminate|]. now intros H; inversion H.
Qed.

Lemma reduceAmounts_error tokens : forall sum token,
  In token tokens ->
  (forall z, BigInt (account_amount token) <> Ok z) ->
  Tokens.reduceAmounts tokens sum = Err SyntaxError.
Proof.
  induction tokens as [|t tokens IH]; intros sum token Hin Hbad; [contradiction|].
  simpl. destruct (BigInt (account_amount t)) as [a|e] eqn:Ha.
  - simpl. destruct Hin as [->|Hin]; [now elim (Hbad a)|]. now apply (IH _ token).
  - simpl. now rewrite (BigInt_error _ _ Ha).
Qed.

Lemma addBalances_error entries : forall m0 mint tokens token,
  In (mint, tokens) entries ->
  In token tokens ->
  (forall z, BigInt (account_amount token) <> Ok z) ->
  Tokens.addBalances entries m0 = Err SyntaxError.
Proof.
  induction entries as [|[k toks] entries IH]; intros m0 mint tokens token Hin Htoken Hbad;
    [contradiction|].
  simpl. destruct Hin as [E|Hin].
  - inversion E; subst. now rewrite (reduceAmounts_error tokens 0%Z token Htoken Hbad).
  - destruct (Tokens.reduceAmounts toks 0%Z) as [s|e] eqn:Hs; simpl.
    + destruct (s >? 0)%Z; now apply (IH _ mint tokens token).
    + destruct toks as [|t toks]; [discriminate|].
      clear - Hs. revert Hs. generalize 0%Z. generalize (t :: toks).
      induction l as [|a l IHl]; intros z Hs; [discriminate|]. simpl in Hs.
      destruct (BigInt (account_amount a)) as [x|e'] eqn:Ha; simpl in Hs.
      * eauto.
      * inversion Hs; subst e'. now rewrite (BigInt_error _ _ Ha).
Qed.

(** X12.  An amount that is not an integer literal.  If the holdings call
    succeeds but the top-level amount, or the amount of any account of any
    identifier, is not a BigInt literal, the aggregation throws a
    [SyntaxError] after the holdings request alone: no metadata is asked
    for, and no identifier is kept from a payload that is partly unreadable. *)
Theorem unreadable_amount up address key h :
  answers up 0 (Tokens.holdingsRequest key address) (JsonHoldings h) ->
  (forall z, BigInt (holdings_amount h) <> Ok z)
  \/ (exists mint tokens token,
        In (mint, tokens) (holdings_tokens h)
        /\ In token tokens
        /\ forall z, BigInt (account_amount token) <> Ok z) ->
  Tokens.fetchTokens up address key [] =
  (Thrown SyntaxError, [Tokens.holdingsRequest key address]).
Proof.
  intros Hserved Hbad.
  rewrite (fetchTokens_collects up address key h Hserved).
  assert (Hm : collectBalances h = Err SyntaxError); [|now rewrite Hm].
  unfold collectBalances.
  destruct (BigInt (holdings_amount h)) as [native|e] eqn:Hnative.
  - destruct Hbad as [Hbad|(mint & tokens & token & Hin & Htoken & Hbad)];
      [now elim (Hbad native)|].
    unfold rbind. now apply (addBalances_error _ _ mint tokens token).
  - simpl. now rewrite (BigInt_error _ _ Hnative).
Qed.

Lemma unreadable_amount_witness :
  Tokens.fetchTokens (servesAll fractionalHoldings payloads2) "ADDRESS" "KEY" [] =
  (Thrown SyntaxError, [Tokens.holdingsRequest "KEY" "ADDRESS"]).
Proof.
  apply (unreadable_amount (servesAll fractionalHoldings payloads2) "ADDRESS" "KEY"
           fractionalHoldings).
  - eexists. repeat split.
  - right. exists "MINT1", [account "0"; account "1.5"], (account "1.5").
    split; [left; reflexivity|]. split; [right; left; reflexivity|].
    intros z. vm_compute. discriminate.
Defined.

(** ** When a record cannot be built *)

Lemma BigIntOfNumber_error (x : number) (e : JsError) :
  BigIntOfNumber x = Err e -> e = RangeError.
Proof.
  unfold BigIntOfNumber. destruct (Prim2SF x) as [s|s| |s mant ex]; try discriminate;
    try (now intros H; inversion H).
  destruct (0 <=? ex)%Z; [discriminate|].
  destruct (_ =? 0)%Z; [discriminate|]. now intros H; inversion H.
Qed.

Lemma toTokenData_error m token e :
  Tokens.toTokenData m token = Err e -> e = RangeError.
Proof.
  unfold Tokens.toTokenData.
  destruct (token_usdPrice token) as [p|]; [|discriminate].
  destruct (truthyNumber p); [|discriminate].
  destruct (BigIntOfNumber (token_decimals token)) as [d|e'] eqn:Hd; simpl.
  - unfold bigintPow. destruct (d <? 0)%Z; simpl; [now intros H; inversion H|].
    unfold bigintDiv. destruct (10 ^ d =? 0)%Z; simpl; [now intros H; inversion H|].
    discriminate.
  - intros H. inversion H; subst e'. now apply (BigIntOfNumber_error _ _ Hd).
Qed.




(** ** The earlier revision's handler *)

Lemma fetchTokens_same up address key log :
  Part000.fetchTokens up address key log = Tokens.fetchTokens up address key log.
Proof.
  unfold Part000.fetchTokens, Tokens.fetchTokens, Tokens.holdingsRequest,
    Part000.apiKeyHeaders.
  rewrite !bind_fetch.
  destruct (up (length log) _) as [|r]; [reflexivity|].
  destruct (ok r); simpl (negb _); cbv iota; [|reflexivity].
  rewrite !bind_lift. destruct (holdingsJson r) as [h|e]; [|reflexivity].
  rewrite !bind_lift. destruct (BigInt (holdings_amount h)) as [native|e]; [|reflexivity].
  rewrite !bind_lift. cbv zeta. rewrite addBalances_agree.
  destruct (Tokens.addBalances _ _) as [m|e]; [|reflexivity].
  apply searchLoop_agree.
Qed.

(** X11.  The earlier revision serves every method as GET.  The handler of
    the earlier revision looks neither at the method nor at the origin: it
    answers any request with the status and body the deployed handler gives
    the same request sent as GET, after the same calls to the provider, and
    it sets no header at all. *)
Theorem earlier_revision_serves_as_get isAddress KEY up req :
  exists res res' log,
    Part000.handler isAddress KEY up req [] = (Returned res, log)
    /\ Tokens.handler isAddress KEY up (asGet req) [] = (Returned res', log)
    /\ res_status res = res_status res'
    /\ res_payload res = res_payload res'
    /\ res_headers res = [].
Proof.
  unfold Part000.handler, Tokens.handler.
  cbn [asGet req_method req_address strictEq notString truthyString negb orb String.eqb
       Ascii.eqb Bool.eqb andb].
  cbv iota.
  destruct (req_address req) as [|address|l];
    try (do 3 eexists; repeat split; reflexivity).
  destruct (negb (truthyString address)); [do 3 eexists; repeat split; reflexivity|].
  destruct (negb (isAddress address)); [do 3 eexists; repeat split; reflexivity|].
  destruct KEY as [key|]; [|do 3 eexists; repeat split; reflexivity].
  destruct (negb (truthyString key)); [do 3 eexists; repeat split; reflexivity|].
  unfold tryCatch, bind. rewrite fetchTokens_same.
  pose proof (fetchTokens_finishes up key address) as Hfinishes.
  destruct (Tokens.fetchTokens up address key []) as [[tokens|e|] log];
    [do 3 eexists; repeat split; reflexivity
    |do 3 eexists; repeat split; reflexivity
    |now elim Hfinishes].
Qed.

(** ** All or nothing *)

Lemma mapResult_error {A B : Type} (f : A -> result B) (l : list A) (a : A) (e : JsError) :
  In a l ->
  f a = Err e ->
  (forall a' e', f a' = Err e' -> e' = e) ->
  mapResult f l = Err e.
Proof.
  intros Hin Ha Hsame. induction l as [|b l IH]; [contradiction|]. simpl.
  destruct (f b) as [x|e'] eqn:Hb; simpl.
  - destruct Hin as [->|Hin]; [congruence|]. now rewrite (IH Hin).
  - now rewrite (Hsame _ _ Hb).
Qed.

Section BadRecord.

Variable up : Upstream.
Variable key : string.
Variable m : JsObject bigint.
Variable mints : list Address.
Variable payloads : nat -> list JupiterTokenSearchApiResponse.
Variable bad : nat.

Hypothesis bad_in_range : (bad < batchCount (length mints))%nat.

Hypothesis answered :
  forall j, (j <= bad)%nat ->
    answers up (S j) (Tokens.searchRequest key (batchAt mints j)) (JsonSearch (payloads j)).

Hypothesis built_before :
  forall j, (j < bad)%nat ->
    exists records, mapResult (Tokens.toTokenData m) (payloads j) = Ok records.

Hypothesis not_built :
  mapResult (Tokens.toTokenData m) (payloads bad) = Err RangeError.

(** The loop stops at the batch whose records cannot be built. *)
Lemma searchLoop_bad_record : forall fuel j acc log,
  length log = S j ->
  (j <= bad)%nat ->
  (length mints <= fuel + 100 * j)%nat ->
  Tokens.searchLoop up key m mints fuel (100 * j) acc log =
  (Thrown RangeError,
   log ++ map (fun i => Tokens.searchRequest key (batchAt mints i)) (seq j (S bad - j))).
Proof.
  induction fuel as [|fuel IH]; intros j acc log Hlog Hj Hfuel;
    rewrite searchLoop_unfold;
    pose proof (batchCount_lt j (length mints)) as Hcount;
    destruct (Nat.ltb_spec (100 * j) (length mints)) as [Hlt|Hge]; try lia.
  rewrite bind_fetch, Hlog.
  destruct (answered j Hj) as (r & Hr & Hok & Hbody).
  unfold batchAt in Hr. rewrite Hr, Hok. simpl (negb true). cbv iota beta.
  unfold searchJson. rewrite Hbody, bind_lift. rewrite bind_lift.
  destruct (Nat.eq_dec j bad) as [->|Hne].
  - rewrite not_built. replace (S bad - bad)%nat with 1%nat by lia. reflexivity.
  - destruct (built_before j ltac:(lia)) as [records ->].
    replace (100 * j + 100)%nat with (100 * S j)%nat by lia.
    rewrite IH by (rewrite ?length_app; simpl; lia).
    replace (S bad - j)%nat with (S (S bad - S j)) by lia.
    cbn [seq map]. rewrite <- app_assoc. unfold batchAt at 2.
    replace (100 * j + 100)%nat with (100 * S j)%nat by lia.
    reflexivity.
Qed.

End BadRecord.

(** X15.  One record that cannot be built fails the whole request.  If
    every call up to some batch succeeds and the payload of that batch holds
    a record that cannot be built, the aggregation throws a [RangeError]
    after that batch's request: the records of the batches before are
    dropped and the batches after are not asked for. *)
Theorem one_bad_record_fails_all up address key h m payloads bad token e :
  answers up 0 (Tokens.holdingsRequest key address) (JsonHoldings h) ->
  collectBalances h = Ok m ->
  (bad < batchCount (length (ObjectKeys m)))%nat ->
  (forall j, (j <= bad)%nat ->
     answers up (S j) (Tokens.searchRequest key (batchAt (ObjectKeys m) j))
       (JsonSearch (payloads j))) ->
  (forall j, (j < bad)%nat ->
     exists records, mapResult (Tokens.toTokenData m) (payloads j) = Ok records) ->
  In token (payloads bad) ->
  Tokens.toTokenData m token = Err e ->
  Tokens.fetchTokens up address key [] =
  (Thrown RangeError,
   Tokens.holdingsRequest key address
   :: map (Tokens.searchRequest key) (firstn (S bad) (batches (ObjectKeys m)))).
Proof.
  intros Hserved Hm Hbad Hanswered Hbuilt Hin Htoken.
  assert (Hrange : forall token' e', Tokens.toTokenData m token' = Err e' -> e' = RangeError)
    by (intros token' e' H; now apply (toTokenData_error m token')).
  assert (Hfails : mapResult (Tokens.toTokenData m) (payloads bad) = Err RangeError).
  { apply (mapResult_error _ _ token); auto.
    rewrite Htoken. f_equal. now apply (Hrange token). }
  rewrite (fetchTokens_collects up address key h Hserved), Hm.
  rewrite (searchLoop_bad_record up key m (ObjectKeys m) payloads bad Hbad Hanswered
             Hbuilt Hfails)
    with (j := 0%nat); try (simpl; lia).
  rewrite firstn_batches by lia. rewrite Nat.sub_0_r, map_map. reflexivity.
Qed.

Lemma one_bad_record_fails_all_witness :
  Tokens.fetchTokens servesBadRecord "ADDRESS" "KEY" [] =
  (Thrown RangeError,
   [Tokens.holdingsRequest "KEY" "ADDRESS";
    Tokens.searchRequest "KEY" (batchAt (ObjectKeys balances250) 0);
    Tokens.searchRequest "KEY" (batchAt (ObjectKeys balances250) 1)]).
Proof.
  apply (one_bad_record_fails_all servesBadRecord "ADDRESS" "KEY" holdings250 balances250
           (fun j => match j with
                     | 0 => [metadata (mintNumber 1) "One" 6%float (Some 2%float)]
                     | _ => [metadata (mintNumber 100) "One hundred" 0%float None;
                             metadata (mintNumber 101) "One hundred and one" (-1)%float
                               (Some 2%float)]
                     end%nat)
           1%nat
           (metadata (mintNumber 101) "One hundred and one" (-1)%float (Some 2%float))
           RangeError).
  - eexists. repeat split.
  - vm_compute. reflexivity.
  - vm_compute. lia.
  - intros j _. eexists. repeat split.
  - intros j Hj. assert (j = 0%nat) as -> by lia. eexists. vm_compute. reflexivity.
  - right. left. reflexivity.
  - vm_compute. reflexivity.
Defined.

(** X16.  When the aggregation returns.  [fetchTokens] returns a token
    list exactly in the runs where the holdings call succeeded with a
    readable payload and, for every batch of the collected identifiers, the
    search call succeeded with a payload all of whose records could be built;
    the list is then the batches' records in order, and every batch has been
    asked for once. *)
Theorem returns_iff_all_succeed up address key tokens log :
  Tokens.fetchTokens up address key [] = (Returned tokens, log) <->
  exists h m payloads records,
    successfulRun up address key h m payloads records
    /\ tokens = concat (map records (seq 0 (batchCount (length (ObjectKeys m)))))
    /\ log = Tokens.holdingsRequest key address
             :: map (Tokens.searchRequest key) (batches (ObjectKeys m)).
Proof.
  split.
  - intros Hrun. destruct (fetchTokens_returned _ _ _ _ _ Hrun) as (h & m & Hsuccess).
    exists h, m. do 2 eexists. split; [exact Hsuccess|].
    rewrite (fetchTokens_success _ _ _ _ _ _ _ Hsuccess) in Hrun.
    inversion Hrun. split; reflexivity.
  - intros (h & m & payloads & records & Hsuccess & -> & ->).
    apply (fetchTokens_success _ _ _ _ _ _ _ Hsuccess).
Qed.
